(** * Microsemi MSS GPIO driver (drivers/gpio/gpio-microsemi.c)

    A shallow embedding of the register-level logic of the driver: the
    line-control callbacks, the interrupt-chip callbacks, the interrupt
    handler and the part of the probe function that touches the device.

    The register window is a map from 32-bit word offsets (counted from
    the ioremapped base) to register contents.  Every callback is a
    computation in a small state monad that threads the window together
    with a chronological log of bus accesses and dispatched interrupts.
    The embedding is sequential: the raw spinlock taken around the
    read-modify-write sequences has no effect on a single thread of
    execution and is left out. *)

From Stdlib Require Import ZArith List Lia Bool Sorted.
Import ListNotations.
Local Open Scope Z_scope.

(** ** Machine integers and kernel helpers *)

(** Conversion to [u32] (the type [MSS_GPIO_REG_TYPE]). *)
Definition u32 (x : Z) : Z := x mod 2 ^ 32.

(** Conversion to [u16] (the type of [gpio_chip.ngpio]). *)
Definition u16 (x : Z) : Z := x mod 2 ^ 16.

(** Conversion of an [unsigned long] to [int]: the low 32 bits, read as a
    two's complement number. *)
Definition to_int (x : Z) : Z := (x + 2 ^ 31) mod 2 ^ 32 - 2 ^ 31.

(** Modelled from the spec: include/linux/bits.h is not among the sources.
    [BITS_PER_LONG] is 64 on the RISC-V target of the driver. *)
Definition BITS_PER_LONG : Z := 64.

(** Modelled from the spec: the macro [BIT(nr)] of the missing
    include/linux/bits.h, [1UL << nr]. *)
Definition BIT (nr : Z) : Z := Z.shiftl 1 nr.

(** Modelled from the spec: the macro [BIT_MASK(nr)] of the missing
    include/linux/bits.h, [1UL << (nr % BITS_PER_LONG)]. *)
Definition BIT_MASK (nr : Z) : Z := Z.shiftl 1 (nr mod BITS_PER_LONG).

(** Modelled from the spec: errno [ENOMEM] of the missing
    include/uapi/asm-generic/errno-base.h. *)
Definition ENOMEM : Z := 12.

(** Modelled from the spec: errno [ENODEV] of the missing
    include/uapi/asm-generic/errno-base.h. *)
Definition ENODEV : Z := 19.

(** Modelled from the spec: errno [EINVAL] of the missing
    include/uapi/asm-generic/errno-base.h; the callbacks return [-EINVAL]
    for an invalid line. *)
Definition EINVAL : Z := 22.

(** Modelled from the spec: the trigger kinds of the missing
    include/linux/irq.h, with the values of that header. *)
Definition IRQ_TYPE_NONE : Z := 0.

(** Modelled from the spec: trigger kind of the missing include/linux/irq.h. *)
Definition IRQ_TYPE_EDGE_RISING : Z := 1.

(** Modelled from the spec: trigger kind of the missing include/linux/irq.h. *)
Definition IRQ_TYPE_EDGE_FALLING : Z := 2.

(** Modelled from the spec: trigger kind of the missing include/linux/irq.h,
    [IRQ_TYPE_EDGE_FALLING | IRQ_TYPE_EDGE_RISING]. *)
Definition IRQ_TYPE_EDGE_BOTH : Z := 3.

(** Modelled from the spec: trigger kind of the missing include/linux/irq.h. *)
Definition IRQ_TYPE_LEVEL_HIGH : Z := 4.

(** Modelled from the spec: trigger kind of the missing include/linux/irq.h. *)
Definition IRQ_TYPE_LEVEL_LOW : Z := 8.

(** Modelled from the spec: [IRQ_HANDLED] of the missing
    include/linux/irqreturn.h. *)
Definition IRQ_HANDLED : Z := 1.

(** ** Constants of the driver *)

Definition MSS_NUM_GPIO : Z := 32.

Definition MSS_GPIO_X_CFG_EN_INT : Z := 3.
Definition MSS_GPIO_X_CFG_BIT_GPIO_OE : Z := 2.
Definition MSS_GPIO_X_CFG_BIT_EN_IN : Z := 1.
Definition MSS_GPIO_X_CFG_BIT_EN_OUT : Z := 0.

Definition MSS_GPIO_INTR_EDGE_BOTH_MASK : Z := Z.shiftl 4 5.
Definition MSS_GPIO_INTR_EDGE_NEGATIVE_MASK : Z := Z.shiftl 3 5.
Definition MSS_GPIO_INTR_EDGE_POSITIVE_MASK : Z := Z.shiftl 2 5.
Definition MSS_GPIO_INTR_LEVEL_LOW_MASK : Z := Z.shiftl 1 5.
Definition MSS_GPIO_INTR_LEVEL_HIGH_MASK : Z := Z.shiftl 0 5.

Definition MSS_GPIO_INDEX_TO_CFG (gpio_cfg_base gpio_port_index : Z) : Z :=
  gpio_cfg_base + gpio_port_index.

Definition MSS_GPIO_IRQ_MASK : Z := BIT_MASK 32 - 1.

(** Word offsets of the registers inside the window, as the probe function
    computes them: a byte offset divided by [sizeof(MSS_GPIO_REG_TYPE)]. *)
Definition CFG_WORD : Z := 0 / 4.
Definition IRQ_WORD : Z := 128 / 4.
Definition IN_WORD : Z := 132 / 4.
Definition OUT_WORD : Z := 136 / 4.

(** ** The device and the bus *)

Inductive event : Type :=
| IoRead (addr val : Z)
| IoWrite (addr val : Z)
| HandleIrq (hwirq : Z).

Record world : Type := mkWorld {
  mem : Z -> Z;
  log : list event
}.

(** Modelled from the spec: the hardware block is no part of the sources.
    A store to the interrupt-status register is write-1-to-clear: every bit
    written as 1 is cleared, every bit written as 0 is kept (the driver
    relies on it where it stores a 1 to "clear any sticky pending
    interrupts").  A store to any other register replaces its contents. *)
Definition hw_store (m : Z -> Z) (addr val : Z) : Z -> Z :=
  fun a =>
    if a =? addr then
      if addr =? IRQ_WORD then Z.land (m a) (Z.lnot val) else val
    else m a.

(** The state monad of the callbacks. *)
Definition M (A : Type) : Type := world -> A * world.

Definition ret {A : Type} (a : A) : M A := fun w => (a, w).

Definition bind {A B : Type} (m : M A) (k : A -> M B) : M B :=
  fun w => let (a, w') := m w in k a w'.

Declare Scope io_scope.
Delimit Scope io_scope with io.
Notation "x <- m ;; k" := (bind m (fun x => k))
  (at level 61, m at next level, right associativity) : io_scope.
Notation "m ;; k" := (bind m (fun _ => k))
  (at level 61, right associativity) : io_scope.
Local Open Scope io_scope.

Definition exec {A : Type} (m : M A) (w : world) : world := snd (m w).
Definition eval {A : Type} (m : M A) (w : world) : A := fst (m w).

Definition emit (e : event) : M unit :=
  fun w => (tt, mkWorld (mem w) (log w ++ [e])).

(** [ioread32]: the value on the bus is a 32-bit word. *)
Definition MSS_GPIO_IOREAD (addr : Z) : M Z :=
  fun w =>
    let v := u32 (mem w addr) in
    (v, mkWorld (mem w) (log w ++ [IoRead addr v])).

(** [iowrite32]: note the argument order of the kernel function. *)
Definition MSS_GPIO_IOWRITE (val addr : Z) : M unit :=
  fun w => (tt, mkWorld (hw_store (mem w) addr val) (log w ++ [IoWrite addr val])).

(** [generic_handle_irq(irq_find_mapping(domain, offset))]: the consumer of
    the line is an external collaborator; the dispatch is recorded. *)
Definition generic_handle_irq (offset : Z) : M unit := emit (HandleIrq offset).

(** Sequencing of a loop body over a list of indices. *)
Fixpoint for_each {A : Type} (l : list A) (body : A -> M unit) : M unit :=
  match l with
  | [] => ret tt
  | x :: l' => body x ;; for_each l' body
  end.

(** The indices [0 <= offset < size] at which [word] has a set bit, in
    increasing order: the sequence that [find_first_bit] and
    [find_next_bit] enumerate. *)
Definition set_bits (word size : Z) : list Z :=
  filter (Z.testbit word) (map Z.of_nat (seq 0 (Z.to_nat size))).

Definition for_each_set_bit (word size : Z) (body : Z -> M unit) : M unit :=
  for_each (set_bits word size) body.

(** ** The driver *)

Record microsemi_mss_gpio_chip : Type := mkChip {
  gc_ngpio : Z;
  gpio_cfg_base : Z;
  gpio_irq_base : Z;
  gpio_in_base : Z;
  gpio_out_base : Z
}.

Definition microsemi_mss_gpio_assign_bit (base_addr bit_offset value : Z) : M unit :=
  output <- MSS_GPIO_IOREAD base_addr ;;
  let output :=
    if value =? 0
    then u32 (Z.land output (Z.lnot (BIT bit_offset)))
    else u32 (Z.lor output (BIT bit_offset)) in
  MSS_GPIO_IOWRITE output base_addr.

Definition microsemi_mss_gpio_direction_input
    (mss_gpio : microsemi_mss_gpio_chip) (gpio_index : Z) : M Z :=
  if gpio_index >=? gc_ngpio mss_gpio then ret (- EINVAL) else
  gpio_cfg <- MSS_GPIO_IOREAD
                (MSS_GPIO_INDEX_TO_CFG (gpio_cfg_base mss_gpio) gpio_index) ;;
  let gpio_cfg := u32 (Z.lor gpio_cfg (BIT MSS_GPIO_X_CFG_BIT_EN_IN)) in
  let gpio_cfg :=
    u32 (Z.land gpio_cfg
           (Z.lnot (Z.lor (BIT MSS_GPIO_X_CFG_BIT_EN_OUT)
                          (BIT MSS_GPIO_X_CFG_BIT_GPIO_OE)))) in
  MSS_GPIO_IOWRITE gpio_cfg
    (MSS_GPIO_INDEX_TO_CFG (gpio_cfg_base mss_gpio) gpio_index) ;;
  ret 0.

Definition microsemi_mss_gpio_direction_output
    (mss_gpio : microsemi_mss_gpio_chip) (gpio_index value : Z) : M Z :=
  if gpio_index >=? gc_ngpio mss_gpio then ret (- EINVAL) else
  let gpio_cfg := 0 in
  let gpio_cfg :=
    u32 (Z.lor gpio_cfg (Z.lor (BIT MSS_GPIO_X_CFG_BIT_EN_OUT)
                               (BIT MSS_GPIO_X_CFG_BIT_GPIO_OE))) in
  let gpio_cfg := u32 (Z.land gpio_cfg (Z.lnot (BIT MSS_GPIO_X_CFG_BIT_EN_IN))) in
  MSS_GPIO_IOWRITE gpio_cfg
    (MSS_GPIO_INDEX_TO_CFG (gpio_cfg_base mss_gpio) gpio_index) ;;
  microsemi_mss_gpio_assign_bit (gpio_out_base mss_gpio) gpio_index value ;;
  ret 0.

Definition microsemi_mss_gpio_get_direction
    (mss_gpio : microsemi_mss_gpio_chip) (gpio_index : Z) : M Z :=
  if gpio_index >=? gc_ngpio mss_gpio then ret (- EINVAL) else
  gpio_cfg <- MSS_GPIO_IOREAD
                (MSS_GPIO_INDEX_TO_CFG (gpio_cfg_base mss_gpio) gpio_index) ;;
  let result :=
    if negb (Z.land gpio_cfg (BIT MSS_GPIO_X_CFG_BIT_EN_IN) =? 0) then 1
    else if Z.land gpio_cfg
              (Z.lor (BIT MSS_GPIO_X_CFG_BIT_EN_OUT) (BIT MSS_GPIO_X_CFG_BIT_GPIO_OE))
            =? Z.lor (BIT MSS_GPIO_X_CFG_BIT_EN_OUT) (BIT MSS_GPIO_X_CFG_BIT_GPIO_OE)
    then 0
    else 0 in
  ret result.

Definition microsemi_mss_gpio_get_value
    (mss_gpio : microsemi_mss_gpio_chip) (gpio_index : Z) : M Z :=
  if gpio_index >=? gc_ngpio mss_gpio then ret (- EINVAL) else
  v <- MSS_GPIO_IOREAD (gpio_in_base mss_gpio) ;;
  ret (if Z.land v (BIT gpio_index) =? 0 then 0 else 1).

Definition microsemi_mss_gpio_set_value
    (mss_gpio : microsemi_mss_gpio_chip) (gpio_index value : Z) : M unit :=
  if gpio_index >=? gc_ngpio mss_gpio then ret tt else
  microsemi_mss_gpio_assign_bit (gpio_out_base mss_gpio) gpio_index value.

(** The interrupt-chip callbacks receive an [irq_data]; the only part of it
    they use is the hardware interrupt number [irqd_to_hwirq(d)], an
    [unsigned long]. *)
Definition microsemi_mss_gpio_irq_set_type
    (mss_gpio : microsemi_mss_gpio_chip) (hwirq type : Z) : M Z :=
  let gpio_index := to_int hwirq in
  if (gpio_index <? 0) || (gpio_index >=? gc_ngpio mss_gpio) then ret (- EINVAL) else
  let interrupt_type :=
    if type =? IRQ_TYPE_EDGE_BOTH then MSS_GPIO_INTR_EDGE_BOTH_MASK
    else if type =? IRQ_TYPE_EDGE_FALLING then MSS_GPIO_INTR_EDGE_NEGATIVE_MASK
    else if type =? IRQ_TYPE_EDGE_RISING then MSS_GPIO_INTR_EDGE_POSITIVE_MASK
    else if type =? IRQ_TYPE_LEVEL_HIGH then MSS_GPIO_INTR_LEVEL_HIGH_MASK
    else MSS_GPIO_INTR_LEVEL_LOW_MASK in
  gpio_cfg <- MSS_GPIO_IOREAD
                (MSS_GPIO_INDEX_TO_CFG (gpio_cfg_base mss_gpio) gpio_index) ;;
  let gpio_cfg := u32 (Z.lor gpio_cfg interrupt_type) in
  MSS_GPIO_IOWRITE gpio_cfg
    (MSS_GPIO_INDEX_TO_CFG (gpio_cfg_base mss_gpio) gpio_index) ;;
  ret 0.

Definition microsemi_mss_gpio_irq_mask (hwirq : Z) : M unit := ret tt.

Definition microsemi_mss_gpio_irq_unmask (hwirq : Z) : M unit := ret tt.

Definition microsemi_mss_gpio_irq_enable
    (mss_gpio : microsemi_mss_gpio_chip) (hwirq : Z) : M unit :=
  let gpio_index := hwirq mod MSS_NUM_GPIO in
  microsemi_mss_gpio_direction_input mss_gpio gpio_index ;;
  microsemi_mss_gpio_assign_bit (gpio_irq_base mss_gpio) gpio_index 1 ;;
  microsemi_mss_gpio_assign_bit
    (MSS_GPIO_INDEX_TO_CFG (gpio_cfg_base mss_gpio) gpio_index)
    MSS_GPIO_X_CFG_EN_INT 1.

Definition microsemi_mss_gpio_irq_disable
    (mss_gpio : microsemi_mss_gpio_chip) (hwirq : Z) : M unit :=
  let gpio_index := hwirq mod MSS_NUM_GPIO in
  microsemi_mss_gpio_assign_bit
    (MSS_GPIO_INDEX_TO_CFG (gpio_cfg_base mss_gpio) gpio_index)
    MSS_GPIO_X_CFG_EN_INT 0.

(** The body of the loop of [microsemi_gpio_irq_handler]. *)
Definition microsemi_gpio_irq_service
    (mss_gpio : microsemi_mss_gpio_chip) (offset : Z) : M unit :=
  microsemi_mss_gpio_assign_bit (gpio_irq_base mss_gpio) offset 1 ;;
  generic_handle_irq offset.

(** The handler that the probe function registers with [devm_request_irq]. *)
Definition microsemi_gpio_irq_handler (mss_gpio : microsemi_mss_gpio_chip) : M Z :=
  v <- MSS_GPIO_IOREAD (gpio_irq_base mss_gpio) ;;
  let status := Z.land v MSS_GPIO_IRQ_MASK in
  for_each_set_bit status (gc_ngpio mss_gpio)
    (microsemi_gpio_irq_service mss_gpio) ;;
  ret IRQ_HANDLED.

(** The register layout that the probe function stores in the chip. *)
Definition layout (ngpio : Z) : microsemi_mss_gpio_chip :=
  {| gc_ngpio := ngpio;
     gpio_cfg_base := CFG_WORD;
     gpio_irq_base := IRQ_WORD;
     gpio_in_base := IN_WORD;
     gpio_out_base := OUT_WORD |}.

(** What the platform collaborators hand to the probe function: the
    outcome of each call into the driver core, the clock framework, the
    device tree and gpiolib.  An error pointer is [Some] of its errno. *)
Record platform : Type := mkPlatform {
  devm_kzalloc_ok : bool;
  devm_ioremap_resource_err : option Z;
  devm_clk_get_err : option Z;
  clk_prepare_enable_ret : Z;
  of_irq_count : Z;
  devm_irq_alloc_descs_ret : Z;
  gpiochip_add_data_ret : Z;
  devm_request_irq_ret : Z
}.

(** The body of the loop that ends the probe function. *)
Definition microsemi_mss_gpio_probe_disable
    (mss_gpio : microsemi_mss_gpio_chip) (gpio_index : Z) : M unit :=
  gpio_cfg <- MSS_GPIO_IOREAD
                (MSS_GPIO_INDEX_TO_CFG (gpio_cfg_base mss_gpio) gpio_index) ;;
  let gpio_cfg := u32 (Z.land gpio_cfg (Z.lnot (BIT MSS_GPIO_X_CFG_EN_INT))) in
  MSS_GPIO_IOWRITE gpio_cfg
    (MSS_GPIO_INDEX_TO_CFG (gpio_cfg_base mss_gpio) gpio_index).

(** The probe function: [inl] is an error return with its code, [inr] is
    the final [return 0] with the chip stored as driver data.  The calls
    into the platform are taken by their outcome; a failure of
    [devm_request_irq] is only reported, as in the source.  The only bus
    accesses of the function itself are those of its final loop. *)
Definition microsemi_mss_gpio_probe (pdev : platform)
    : M (Z + microsemi_mss_gpio_chip) :=
  if negb (devm_kzalloc_ok pdev) then ret (inl (- ENOMEM)) else
  match devm_ioremap_resource_err pdev with
  | Some err => ret (inl err)
  | None =>
  match devm_clk_get_err pdev with
  | Some err => ret (inl err)
  | None =>
  if negb (clk_prepare_enable_ret pdev =? 0) then ret (inl (- EINVAL)) else
  let ngpio := of_irq_count pdev in
  if ngpio >? MSS_NUM_GPIO then ret (inl (- EINVAL)) else
  let mss_gpio := layout (u16 ngpio) in
  let irq_base := devm_irq_alloc_descs_ret pdev in
  if irq_base <? 0 then ret (inl (- ENODEV)) else
  if negb (gpiochip_add_data_ret pdev =? 0)
  then ret (inl (gpiochip_add_data_ret pdev)) else
  for_each (map Z.of_nat (seq 0 (Z.to_nat ngpio)))
    (microsemi_mss_gpio_probe_disable mss_gpio) ;;
  ret (inr mss_gpio)
  end
  end.

(** Modelled from the spec: direction code of the missing
    include/linux/gpio/driver.h; [get_direction] returns zero for output. *)
Definition GPIO_LINE_DIRECTION_OUT : Z := 0.

(** Modelled from the spec: direction code of the missing
    include/linux/gpio/driver.h; [get_direction] returns it for input. *)
Definition GPIO_LINE_DIRECTION_IN : Z := 1.

(** The word that [assign_bit] stores when it has read [output]. *)
Definition assigned (output bit_offset value : Z) : Z :=
  if value =? 0
  then u32 (Z.land output (Z.lnot (BIT bit_offset)))
  else u32 (Z.lor output (BIT bit_offset)).

(** The value that [direction_input] stores for a config word [c]. *)
Definition input_cfg (c : Z) : Z :=
  u32 (Z.land (u32 (Z.lor c (BIT MSS_GPIO_X_CFG_BIT_EN_IN)))
         (Z.lnot (Z.lor (BIT MSS_GPIO_X_CFG_BIT_EN_OUT)
                        (BIT MSS_GPIO_X_CFG_BIT_GPIO_OE)))).

(** The table of trigger codes of the specification (section 3), used to
    state what [irq_set_type] stores: level-high 0, level-low 1,
    edge-rising 2, edge-falling 3, edge-both 4, anything else level-low. *)
Definition spec_trigger_code (type : Z) : Z :=
  if type =? IRQ_TYPE_LEVEL_HIGH then 0
  else if type =? IRQ_TYPE_LEVEL_LOW then 1
  else if type =? IRQ_TYPE_EDGE_RISING then 2
  else if type =? IRQ_TYPE_EDGE_FALLING then 3
  else if type =? IRQ_TYPE_EDGE_BOTH then 4
  else 1.

(** ** Observations on a run *)

Definition is_write (e : event) : bool :=
  match e with IoWrite _ _ => true | _ => false end.

Definition writes (l : list event) : list event := filter is_write l.

Definition dispatched (l : list event) : list Z :=
  flat_map (fun e => match e with HandleIrq n => [n] | _ => [] end) l.

(** A world with every register at zero except the listed ones. *)
Definition regs_of (l : list (Z * Z)) : Z -> Z :=
  fun a =>
    match find (fun p => fst p =? a) l with
    | Some p => snd p
    | None => 0
    end.

Definition power_on (l : list (Z * Z)) : world := mkWorld (regs_of l) [].

(** The hardware latches a trigger on [line]: its sticky bit becomes 1. *)
Definition hw_raise (line : Z) (w : world) : world :=
  mkWorld (fun a => if a =? IRQ_WORD then Z.lor (mem w a) (BIT line) else mem w a)
          (log w).

(** ** The chained handler and the direction invariant *)

(** Modelled from the spec: [chained_irq_enter] of the missing
    include/linux/irqchip/chained_irq.h masks or acknowledges the upstream
    interrupt at the parent controller; it does not access this register
    window. *)
Definition chained_irq_enter : M unit := ret tt.

(** Modelled from the spec: [chained_irq_exit] of the missing
    include/linux/irqchip/chained_irq.h unmasks the upstream interrupt at
    the parent controller; it does not access this register window. *)
Definition chained_irq_exit : M unit := ret tt.

(** The chained variant of the handler, which the source defines and never
    registers: its loop only dispatches. *)
Definition microsemi_mss_gpio_irq_handler (mss_gpio : microsemi_mss_gpio_chip) : M unit :=
  chained_irq_enter ;;
  v <- MSS_GPIO_IOREAD (gpio_irq_base mss_gpio) ;;
  let status := Z.land v MSS_GPIO_IRQ_MASK in
  for_each_set_bit status (gc_ngpio mss_gpio) generic_handle_irq ;;
  chained_irq_exit.

(** A config word selects one direction: enable-input alone, or
    enable-output together with output-enable. *)
Definition direction_consistent (gpio_cfg : Z) : bool :=
  let en_in := Z.testbit gpio_cfg MSS_GPIO_X_CFG_BIT_EN_IN in
  let en_out := Z.testbit gpio_cfg MSS_GPIO_X_CFG_BIT_EN_OUT in
  let oe := Z.testbit gpio_cfg MSS_GPIO_X_CFG_BIT_GPIO_OE in
  (en_in && negb en_out && negb oe) || (negb en_in && en_out && oe).

(** The hardware presents [level] in the input register: the register is
    driven by the pads, not by the driver. *)
Definition hw_sample (level : Z) (w : world) : world :=
  mkWorld (fun a => if a =? IN_WORD then level else mem w a) (log w).

(** ** Bit-level facts *)

Lemma testbit_u32 (x k : Z) : k < 32 -> Z.testbit (u32 x) k = Z.testbit x k.
Proof. intros Hk. unfold u32. now apply Z.mod_pow2_bits_low. Qed.

Lemma testbit_BIT (n k : Z) : 0 <= n -> Z.testbit (BIT n) k = (n =? k).
Proof. intros Hn. unfold BIT. rewrite Z.shiftl_1_l. now apply Z.pow2_bits_eqb. Qed.

Lemma u32_range (x : Z) : 0 <= u32 x < 2 ^ 32.
Proof. unfold u32. apply Z.mod_pos_bound. lia. Qed.

Lemma u32_small (x : Z) : 0 <= x < 2 ^ 32 -> u32 x = x.
Proof. intros Hx. unfold u32. now apply Z.mod_small. Qed.

Lemma u32_u32 (x : Z) : u32 (u32 x) = u32 x.
Proof. apply u32_small, u32_range. Qed.

Lemma u32_ext (x y : Z) :
  (forall k, 0 <= k < 32 -> Z.testbit x k = Z.testbit y k) -> u32 x = u32 y.
Proof.
  intros H. apply Z.bits_inj'. intros k Hk. unfold u32.
  destruct (Z.ltb_spec k 32) as [Hlt | Hge].
  - rewrite !Z.mod_pow2_bits_low by lia. apply H. lia.
  - rewrite !Z.mod_pow2_bits_high by lia. reflexivity.
Qed.

Lemma land_BIT_eqb (x n : Z) :
  0 <= n -> (Z.land x (BIT n) =? 0) = negb (Z.testbit x n).
Proof.
  intros Hn. destruct (Z.testbit x n) eqn:Hb; cbn.
  - apply Z.eqb_neq. intros H0.
    assert (Ht : Z.testbit (Z.land x (BIT n)) n = true).
    { rewrite Z.land_spec, Hb, testbit_BIT, Z.eqb_refl by lia. reflexivity. }
    rewrite H0, Z.bits_0 in Ht. discriminate.
  - apply Z.eqb_eq. apply Z.bits_inj'. intros k Hk.
    rewrite Z.land_spec, testbit_BIT, Z.bits_0 by lia.
    destruct (Z.eqb_spec n k) as [-> | Hne].
    + rewrite Hb. reflexivity.
    + apply andb_false_r.
Qed.

(** Rewriting of a bit test through the operators the driver uses. *)
Ltac bits :=
  repeat first
    [ rewrite testbit_u32 by lia
    | rewrite Z.lor_spec
    | rewrite Z.land_spec
    | rewrite Z.lnot_spec by lia
    | rewrite testbit_BIT by lia ].

(** ** The device under a store *)

Lemma hw_store_same (m : Z -> Z) (a v : Z) :
  a <> IRQ_WORD -> hw_store m a v a = v.
Proof.
  intros Ha. unfold hw_store. rewrite Z.eqb_refl.
  destruct (Z.eqb_spec a IRQ_WORD); [contradiction | reflexivity].
Qed.

Lemma hw_store_irq (m : Z -> Z) (v : Z) :
  hw_store m IRQ_WORD v IRQ_WORD = Z.land (m IRQ_WORD) (Z.lnot v).
Proof. unfold hw_store. rewrite Z.eqb_refl. reflexivity. Qed.

Lemma hw_store_other (m : Z -> Z) (a v b : Z) :
  b <> a -> hw_store m a v b = m b.
Proof.
  intros Hb. unfold hw_store.
  destruct (Z.eqb_spec b a); [contradiction | reflexivity].
Qed.

(** ** Each callback as one step on the world *)

Lemma assign_bit_run (a k v : Z) (w : world) :
  microsemi_mss_gpio_assign_bit a k v w =
  (tt, mkWorld (hw_store (mem w) a (assigned (u32 (mem w a)) k v))
               (log w ++ [IoRead a (u32 (mem w a));
                          IoWrite a (assigned (u32 (mem w a)) k v)])).
Proof.
  unfold microsemi_mss_gpio_assign_bit, bind, MSS_GPIO_IOREAD, MSS_GPIO_IOWRITE,
    assigned.
  cbn [mem log]. rewrite <- app_assoc. reflexivity.
Qed.

Lemma in_range_geb (idx n : Z) : idx < n -> (idx >=? n) = false.
Proof. intros H. rewrite Z.geb_leb. now apply Z.leb_gt. Qed.

Lemma out_of_range_geb (idx n : Z) : n <= idx -> (idx >=? n) = true.
Proof. intros H. rewrite Z.geb_leb. now apply Z.leb_le. Qed.

Lemma direction_input_run (n idx : Z) (w : world) :
  idx < n ->
  microsemi_mss_gpio_direction_input (layout n) idx w =
  (0, mkWorld (hw_store (mem w) idx (input_cfg (u32 (mem w idx))))
              (log w ++ [IoRead idx (u32 (mem w idx));
                         IoWrite idx (input_cfg (u32 (mem w idx)))])).
Proof.
  intros H. unfold microsemi_mss_gpio_direction_input.
  cbn [gc_ngpio gpio_cfg_base layout]. rewrite in_range_geb by assumption.
  unfold bind, MSS_GPIO_IOREAD, MSS_GPIO_IOWRITE, ret, MSS_GPIO_INDEX_TO_CFG,
    input_cfg, CFG_WORD.
  cbn [mem log]. change (0 / 4 + idx) with (0 + idx). rewrite Z.add_0_l.
  rewrite <- app_assoc. reflexivity.
Qed.

Lemma direction_output_run (n idx v : Z) (w : world) :
  idx < n ->
  microsemi_mss_gpio_direction_output (layout n) idx v w =
  (0, let m1 := hw_store (mem w) idx 5 in
      mkWorld (hw_store m1 OUT_WORD (assigned (u32 (m1 OUT_WORD)) idx v))
              (log w ++ [IoWrite idx 5;
                         IoRead OUT_WORD (u32 (m1 OUT_WORD));
                         IoWrite OUT_WORD (assigned (u32 (m1 OUT_WORD)) idx v)])).
Proof.
  intros H. unfold microsemi_mss_gpio_direction_output.
  cbn [gc_ngpio gpio_cfg_base gpio_out_base layout].
  rewrite in_range_geb by assumption.
  unfold bind at 1. unfold MSS_GPIO_IOWRITE at 1.
  unfold bind. rewrite assign_bit_run. unfold ret, MSS_GPIO_INDEX_TO_CFG, CFG_WORD.
  cbn [mem log]. change (0 / 4 + idx) with (0 + idx). rewrite Z.add_0_l.
  change (u32 (Z.land (u32 (Z.lor 0 (Z.lor (BIT MSS_GPIO_X_CFG_BIT_EN_OUT)
                                           (BIT MSS_GPIO_X_CFG_BIT_GPIO_OE))))
                 (Z.lnot (BIT MSS_GPIO_X_CFG_BIT_EN_IN)))) with 5.
  rewrite <- app_assoc. reflexivity.
Qed.

Lemma get_direction_run (n idx : Z) (w : world) :
  idx < n ->
  microsemi_mss_gpio_get_direction (layout n) idx w =
  (if Z.testbit (mem w idx) MSS_GPIO_X_CFG_BIT_EN_IN then 1 else 0,
   mkWorld (mem w) (log w ++ [IoRead idx (u32 (mem w idx))])).
Proof.
  intros H. unfold microsemi_mss_gpio_get_direction.
  cbn [gc_ngpio gpio_cfg_base layout]. rewrite in_range_geb by assumption.
  unfold bind, MSS_GPIO_IOREAD, ret, MSS_GPIO_INDEX_TO_CFG, CFG_WORD.
  change (0 / 4 + idx) with (0 + idx). rewrite Z.add_0_l.
  rewrite land_BIT_eqb by (unfold MSS_GPIO_X_CFG_BIT_EN_IN; lia).
  rewrite testbit_u32 by (unfold MSS_GPIO_X_CFG_BIT_EN_IN; lia).
  rewrite negb_involutive.
  destruct (Z.testbit (mem w idx) MSS_GPIO_X_CFG_BIT_EN_IN).
  - reflexivity.
  - match goal with |- context [if ?b then 0 else 0] => destruct b end; reflexivity.
Qed.

Lemma get_value_run (n idx : Z) (w : world) :
  0 <= idx < n -> idx < 32 ->
  microsemi_mss_gpio_get_value (layout n) idx w =
  (Z.b2z (Z.testbit (mem w IN_WORD) idx),
   mkWorld (mem w) (log w ++ [IoRead IN_WORD (u32 (mem w IN_WORD))])).
Proof.
  intros H H32. unfold microsemi_mss_gpio_get_value.
  cbn [gc_ngpio gpio_in_base layout]. rewrite in_range_geb by lia.
  unfold bind, MSS_GPIO_IOREAD, ret.
  rewrite land_BIT_eqb by lia. rewrite testbit_u32 by lia.
  destruct (Z.testbit (mem w IN_WORD) idx); reflexivity.
Qed.

Lemma irq_disable_run (n hwirq : Z) (w : world) :
  0 <= hwirq < 32 ->
  microsemi_mss_gpio_irq_disable (layout n) hwirq w =
  (tt, mkWorld (hw_store (mem w) hwirq
                  (assigned (u32 (mem w hwirq)) MSS_GPIO_X_CFG_EN_INT 0))
               (log w ++ [IoRead hwirq (u32 (mem w hwirq));
                          IoWrite hwirq
                            (assigned (u32 (mem w hwirq)) MSS_GPIO_X_CFG_EN_INT 0)])).
Proof.
  intros H. unfold microsemi_mss_gpio_irq_disable, MSS_NUM_GPIO.
  rewrite Z.mod_small by lia. cbn [gpio_cfg_base layout].
  unfold MSS_GPIO_INDEX_TO_CFG, CFG_WORD.
  change (0 / 4 + hwirq) with (0 + hwirq). rewrite Z.add_0_l.
  apply assign_bit_run.
Qed.

(** ** Line control *)

Lemma assigned_bit (o k v j : Z) :
  0 <= k -> 0 <= j < 32 ->
  Z.testbit (assigned o k v) j =
  if j =? k then negb (v =? 0) else Z.testbit o j.
Proof.
  intros Hk Hj. unfold assigned.
  destruct (v =? 0); bits; rewrite (Z.eqb_sym k j);
    destruct (Z.eqb_spec j k); cbn [negb];
    rewrite ?andb_false_r, ?andb_true_r, ?orb_false_r, ?orb_true_r; reflexivity.
Qed.

(** C6: for an in-range line, [direction_output] stores a config word with
    exactly enable-output and output-enable set (whatever the register
    held), then sets the line's bit of the output register to the
    requested value and leaves every other register, and every other bit
    of the output register, alone; it returns 0. *)
Theorem C6_direction_output_overwrites_config (n idx v : Z) (w : world) :
  0 <= idx < n -> n <= MSS_NUM_GPIO ->
  let w' := exec (microsemi_mss_gpio_direction_output (layout n) idx v) w in
  eval (microsemi_mss_gpio_direction_output (layout n) idx v) w = 0 /\
  mem w' idx = Z.lor (BIT MSS_GPIO_X_CFG_BIT_EN_OUT) (BIT MSS_GPIO_X_CFG_BIT_GPIO_OE) /\
  (forall k, Z.testbit (mem w' idx) k =
             (k =? MSS_GPIO_X_CFG_BIT_EN_OUT) || (k =? MSS_GPIO_X_CFG_BIT_GPIO_OE)) /\
  Z.testbit (mem w' OUT_WORD) idx = negb (v =? 0) /\
  (forall k, 0 <= k < 32 -> k <> idx ->
             Z.testbit (mem w' OUT_WORD) k = Z.testbit (mem w OUT_WORD) k) /\
  (forall a, a <> idx -> a <> OUT_WORD -> mem w' a = mem w a) /\
  log w' = log w ++
    [IoWrite idx (Z.lor (BIT MSS_GPIO_X_CFG_BIT_EN_OUT) (BIT MSS_GPIO_X_CFG_BIT_GPIO_OE));
     IoRead OUT_WORD (u32 (mem w OUT_WORD));
     IoWrite OUT_WORD (assigned (u32 (mem w OUT_WORD)) idx v)].
Proof.
  intros Hidx Hn w'. subst w'. unfold MSS_NUM_GPIO in Hn. unfold exec, eval.
  rewrite direction_output_run by lia. cbn [fst snd mem log].
  assert (Hio : idx <> OUT_WORD) by (unfold OUT_WORD; cbn; lia).
  assert (Hii : idx <> IRQ_WORD) by (unfold IRQ_WORD; cbn; lia).
  assert (Hoi : OUT_WORD <> IRQ_WORD) by (unfold OUT_WORD, IRQ_WORD; cbn; lia).
  assert (Hout : hw_store (mem w) idx 5 OUT_WORD = mem w OUT_WORD)
    by (apply hw_store_other; congruence).
  rewrite Hout.
  assert (Hcfg : hw_store (hw_store (mem w) idx 5) OUT_WORD
                   (assigned (u32 (mem w OUT_WORD)) idx v) idx = 5).
  { rewrite hw_store_other by assumption. now apply hw_store_same. }
  repeat split.
  - exact Hcfg.
  - intros k. rewrite Hcfg.
    change 5 with (Z.lor (BIT MSS_GPIO_X_CFG_BIT_EN_OUT) (BIT MSS_GPIO_X_CFG_BIT_GPIO_OE)).
    rewrite Z.lor_spec, !testbit_BIT by (cbv; discriminate).
    rewrite (Z.eqb_sym _ k), (Z.eqb_sym _ k). reflexivity.
  - rewrite hw_store_same by assumption.
    rewrite assigned_bit, Z.eqb_refl by lia. reflexivity.
  - intros k Hk Hne. rewrite hw_store_same by assumption.
    rewrite assigned_bit by lia.
    destruct (Z.eqb_spec k idx); [contradiction |]. apply testbit_u32. lia.
  - intros a Ha1 Ha2. rewrite !hw_store_other by assumption. reflexivity.
Qed.

Lemma C6_direction_output_witness :
  0 <= 3 < 8 /\ 8 <= MSS_NUM_GPIO /\
  mem (exec (microsemi_mss_gpio_direction_output (layout 8) 3 1)
         (power_on [(3, 234)])) 3 = 5.
Proof.
  split; [lia |]. split; [unfold MSS_NUM_GPIO; lia |].
  apply (C6_direction_output_overwrites_config 8 3 1 (power_on [(3, 234)]));
    unfold MSS_NUM_GPIO; lia.
Defined.

(** C7 does not hold of the code.  After [direction_output] the line is
    an output and the output register holds the driven value, but
    [get_value] does not read the output register: it performs one read of
    the input register and answers the line's bit there, whatever level the
    hardware presents in that register and whatever value is being
    driven.  So the value being output, which the comment of the function
    promises, comes back only where the hardware mirrors it into the input
    register; on a device whose input register reads 0 the line driven to 1
    is read back as 0. *)
Theorem C7_get_value_ignores_driven_value (n idx v input : Z) (w : world) :
  0 <= idx < n -> n <= MSS_NUM_GPIO ->
  let w1 := exec (microsemi_mss_gpio_direction_output (layout n) idx v) w in
  let w2 := hw_sample input w1 in
  eval (microsemi_mss_gpio_get_direction (layout n) idx) w1 = GPIO_LINE_DIRECTION_OUT /\
  Z.testbit (mem w1 OUT_WORD) idx = negb (v =? 0) /\
  eval (microsemi_mss_gpio_get_value (layout n) idx) w2 = Z.b2z (Z.testbit input idx) /\
  log (exec (microsemi_mss_gpio_get_value (layout n) idx) w2)
    = log w1 ++ [IoRead IN_WORD (u32 input)].
Proof.
  intros Hidx Hn w1 w2. unfold MSS_NUM_GPIO in Hn.
  assert (Hio : idx <> OUT_WORD) by (unfold OUT_WORD; cbn; lia).
  assert (Hii : idx <> IRQ_WORD) by (unfold IRQ_WORD; cbn; lia).
  assert (Hoi : OUT_WORD <> IRQ_WORD) by (unfold OUT_WORD, IRQ_WORD; cbn; lia).
  assert (Hm1 : mem w1
                = hw_store (hw_store (mem w) idx 5) OUT_WORD
                    (assigned (u32 (hw_store (mem w) idx 5 OUT_WORD)) idx v)).
  { subst w1. unfold exec. now rewrite direction_output_run by lia. }
  assert (Hin : mem w2 IN_WORD = input).
  { subst w2. unfold hw_sample. cbn [mem]. now rewrite Z.eqb_refl. }
  split; [| split; [| split]].
  - unfold eval. rewrite get_direction_run by lia. cbn [fst]. rewrite Hm1.
    rewrite hw_store_other by assumption.
    rewrite hw_store_same by assumption. reflexivity.
  - rewrite Hm1. rewrite hw_store_same by assumption.
    rewrite assigned_bit, Z.eqb_refl by lia. reflexivity.
  - unfold eval. rewrite get_value_run by lia. cbn [fst]. now rewrite Hin.
  - unfold exec. rewrite get_value_run by lia. cbn [snd log]. now rewrite Hin.
Qed.

Lemma C7_get_value_input_reads_zero :
  0 <= 0 < 1 /\ 1 <= MSS_NUM_GPIO /\
  Z.testbit
    (mem (exec (microsemi_mss_gpio_direction_output (layout 1) 0 1) (power_on []))
       OUT_WORD) 0 = true /\
  eval (microsemi_mss_gpio_get_value (layout 1) 0)
    (hw_sample 0 (exec (microsemi_mss_gpio_direction_output (layout 1) 0 1)
                    (power_on []))) = 0.
Proof.
  assert (H1 : 0 <= 0 < 1) by lia.
  assert (H2 : 1 <= MSS_NUM_GPIO) by (unfold MSS_NUM_GPIO; lia).
  split; [exact H1 |]. split; [exact H2 |].
  destruct (C7_get_value_ignores_driven_value 1 0 1 0 (power_on []) H1 H2)
    as (_ & Hout & Hval & _).
  split; [exact Hout | exact Hval].
Defined.

(** C10: for an in-range line, [get_direction] answers input exactly when
    the enable-input bit of the config register is set and output in every
    other case; after [direction_input] it answers input and after
    [direction_output] it answers output. *)
Theorem C10_get_direction (n idx v : Z) (w : world) :
  0 <= idx < n -> n <= MSS_NUM_GPIO ->
  eval (microsemi_mss_gpio_get_direction (layout n) idx) w
    = (if Z.testbit (mem w idx) MSS_GPIO_X_CFG_BIT_EN_IN
       then GPIO_LINE_DIRECTION_IN else GPIO_LINE_DIRECTION_OUT) /\
  eval (microsemi_mss_gpio_direction_input (layout n) idx ;;
        microsemi_mss_gpio_get_direction (layout n) idx) w
    = GPIO_LINE_DIRECTION_IN /\
  eval (microsemi_mss_gpio_direction_output (layout n) idx v ;;
        microsemi_mss_gpio_get_direction (layout n) idx) w
    = GPIO_LINE_DIRECTION_OUT.
Proof.
  intros Hidx Hn. unfold MSS_NUM_GPIO in Hn. unfold eval.
  assert (Hio : idx <> OUT_WORD) by (unfold OUT_WORD; cbn; lia).
  assert (Hii : idx <> IRQ_WORD) by (unfold IRQ_WORD; cbn; lia).
  repeat split.
  - rewrite get_direction_run by lia. reflexivity.
  - unfold bind. rewrite direction_input_run by lia.
    rewrite get_direction_run by lia. cbn [fst mem].
    rewrite hw_store_same by assumption. unfold input_cfg.
    unfold MSS_GPIO_X_CFG_BIT_EN_IN, MSS_GPIO_X_CFG_BIT_EN_OUT,
      MSS_GPIO_X_CFG_BIT_GPIO_OE.
    bits. destruct (Z.testbit (mem w idx) 1); reflexivity.
  - unfold bind. rewrite direction_output_run by lia.
    rewrite get_direction_run by lia. cbn [fst mem].
    rewrite hw_store_other by assumption.
    rewrite hw_store_same by assumption. reflexivity.
Qed.

Lemma C10_get_direction_witness :
  0 <= 1 < 2 /\ 2 <= MSS_NUM_GPIO /\
  eval (microsemi_mss_gpio_direction_input (layout 2) 1 ;;
        microsemi_mss_gpio_get_direction (layout 2) 1) (power_on [(1, 5)])
    = GPIO_LINE_DIRECTION_IN.
Proof.
  split; [lia |]. split; [unfold MSS_NUM_GPIO; lia |].
  apply (C10_get_direction 2 1 0 (power_on [(1, 5)])); unfold MSS_NUM_GPIO; lia.
Defined.

(** ** Interrupt-chip callbacks *)

Lemma testbit_u32_high (x k : Z) : 32 <= k -> Z.testbit (u32 x) k = false.
Proof. intros Hk. unfold u32. apply Z.mod_pow2_bits_high. lia. Qed.

Lemma assigned_high (o k v j : Z) : 32 <= j -> Z.testbit (assigned o k v) j = false.
Proof. intros Hj. unfold assigned. destruct (v =? 0); now apply testbit_u32_high. Qed.

Lemma assigned_u32 (o k v : Z) : u32 (assigned o k v) = assigned o k v.
Proof. unfold assigned. destruct (v =? 0); apply u32_u32. Qed.

Lemma input_cfg_u32 (c : Z) : u32 (input_cfg c) = input_cfg c.
Proof. unfold input_cfg. apply u32_u32. Qed.

Lemma input_cfg_bit (c j : Z) :
  0 <= j < 32 ->
  Z.testbit (input_cfg c) j =
  if j =? MSS_GPIO_X_CFG_BIT_EN_IN then true
  else if (j =? MSS_GPIO_X_CFG_BIT_EN_OUT) || (j =? MSS_GPIO_X_CFG_BIT_GPIO_OE) then false
  else Z.testbit c j.
Proof.
  intros Hj. unfold input_cfg, MSS_GPIO_X_CFG_BIT_EN_IN, MSS_GPIO_X_CFG_BIT_EN_OUT,
    MSS_GPIO_X_CFG_BIT_GPIO_OE.
  bits. rewrite (Z.eqb_sym 1 j), (Z.eqb_sym 0 j), (Z.eqb_sym 2 j).
  destruct (Z.eqb_spec j 1); destruct (Z.eqb_spec j 0); destruct (Z.eqb_spec j 2);
    try lia; cbn [negb orb andb];
    rewrite ?orb_true_r, ?orb_false_r, ?andb_true_r, ?andb_false_r; reflexivity.
Qed.

(** Equality of two words from the equality of their bits below 32 and
    above. *)
Lemma bits_split_eq (x y : Z) :
  (forall k, 0 <= k < 32 -> Z.testbit x k = Z.testbit y k) ->
  (forall k, 32 <= k -> Z.testbit x k = Z.testbit y k) ->
  x = y.
Proof.
  intros Hlo Hhi. apply Z.bits_inj'. intros k Hk.
  destruct (Z.ltb_spec k 32); [apply Hlo | apply Hhi]; lia.
Qed.

Lemma irq_enable_run (n hwirq : Z) (w : world) :
  0 <= hwirq < n -> n <= 32 ->
  microsemi_mss_gpio_irq_enable (layout n) hwirq w =
  (tt,
   let c1 := input_cfg (u32 (mem w hwirq)) in
   let s := u32 (mem w IRQ_WORD) in
   mkWorld
     (hw_store
        (hw_store (hw_store (mem w) hwirq c1) IRQ_WORD (assigned s hwirq 1))
        hwirq (assigned c1 MSS_GPIO_X_CFG_EN_INT 1))
     (log w ++ [IoRead hwirq (u32 (mem w hwirq)); IoWrite hwirq c1;
                IoRead IRQ_WORD s; IoWrite IRQ_WORD (assigned s hwirq 1);
                IoRead hwirq c1;
                IoWrite hwirq (assigned c1 MSS_GPIO_X_CFG_EN_INT 1)])).
Proof.
  intros Hidx Hn. unfold microsemi_mss_gpio_irq_enable, MSS_NUM_GPIO.
  rewrite Z.mod_small by lia.
  assert (Hii : hwirq <> IRQ_WORD) by (unfold IRQ_WORD; cbn; lia).
  unfold bind. rewrite direction_input_run by lia.
  rewrite assign_bit_run. cbn [gpio_irq_base gpio_cfg_base layout mem log].
  unfold MSS_GPIO_INDEX_TO_CFG, CFG_WORD.
  change (0 / 4 + hwirq) with (0 + hwirq). rewrite Z.add_0_l.
  rewrite assign_bit_run. cbn [mem log].
  rewrite (hw_store_other (mem w) hwirq _ IRQ_WORD) by congruence.
  rewrite (hw_store_other _ IRQ_WORD _ hwirq) by assumption.
  rewrite hw_store_same by assumption.
  rewrite input_cfg_u32. cbv zeta.
  rewrite <- !app_assoc. reflexivity.
Qed.

Lemma enabled_cfg_bit (c j : Z) :
  0 <= j < 32 ->
  Z.testbit (assigned (input_cfg c) MSS_GPIO_X_CFG_EN_INT 1) j =
  if j =? MSS_GPIO_X_CFG_EN_INT then true
  else if j =? MSS_GPIO_X_CFG_BIT_EN_IN then true
  else if (j =? MSS_GPIO_X_CFG_BIT_EN_OUT) || (j =? MSS_GPIO_X_CFG_BIT_GPIO_OE) then false
  else Z.testbit c j.
Proof.
  intros Hj. rewrite assigned_bit by (unfold MSS_GPIO_X_CFG_EN_INT; lia).
  rewrite input_cfg_bit by assumption. reflexivity.
Qed.

Lemma enabled_cfg_idem (c : Z) :
  assigned (input_cfg (u32 (assigned (input_cfg c) MSS_GPIO_X_CFG_EN_INT 1)))
    MSS_GPIO_X_CFG_EN_INT 1
  = assigned (input_cfg c) MSS_GPIO_X_CFG_EN_INT 1.
Proof.
  apply bits_split_eq.
  - intros k Hk. rewrite !enabled_cfg_bit by assumption.
    rewrite testbit_u32 by lia. rewrite enabled_cfg_bit by assumption.
    unfold MSS_GPIO_X_CFG_EN_INT, MSS_GPIO_X_CFG_BIT_EN_IN, MSS_GPIO_X_CFG_BIT_EN_OUT,
      MSS_GPIO_X_CFG_BIT_GPIO_OE.
    destruct (k =? 3); [reflexivity |]. destruct (k =? 1); [reflexivity |].
    destruct ((k =? 0) || (k =? 2)); reflexivity.
  - intros k Hk. rewrite !assigned_high by assumption. reflexivity.
Qed.

(** The status register after the write-1-to-clear store of
    [assign_bit(irq, line, 1)]: nothing is pending below bit 32. *)
Lemma cleared_status_bit (s line k : Z) :
  0 <= line -> 0 <= k < 32 ->
  Z.testbit (Z.land s (Z.lnot (assigned (u32 s) line 1))) k = false.
Proof.
  intros Hl Hk. rewrite Z.land_spec, Z.lnot_spec by lia.
  rewrite assigned_bit by lia. change (negb (1 =? 0)) with true.
  rewrite testbit_u32 by lia.
  destruct (k =? line); destruct (Z.testbit s k); reflexivity.
Qed.

Lemma cleared_status_high (s line k : Z) :
  32 <= k ->
  Z.testbit (Z.land s (Z.lnot (assigned (u32 s) line 1))) k = Z.testbit s k.
Proof.
  intros Hk. rewrite Z.land_spec, Z.lnot_spec by lia.
  rewrite assigned_high by lia. apply andb_true_r.
Qed.

Lemma cleared_status_idem (s line : Z) :
  0 <= line ->
  let s1 := Z.land s (Z.lnot (assigned (u32 s) line 1)) in
  Z.land s1 (Z.lnot (assigned (u32 s1) line 1)) = s1.
Proof.
  intros Hl s1. apply bits_split_eq.
  - intros k Hk. rewrite cleared_status_bit by assumption.
    subst s1. rewrite cleared_status_bit by assumption. reflexivity.
  - intros k Hk. now rewrite cleared_status_high.
Qed.

Lemma dispatched_app (l1 l2 : list event) :
  dispatched (l1 ++ l2) = dispatched l1 ++ dispatched l2.
Proof. unfold dispatched. apply flat_map_app. Qed.

(** C5: for an in-range line, [irq_enable] first rewrites the config
    register as [direction_input] does, then stores to the status register
    with the line's bit asserted, then sets the interrupt-enable bit of the
    config register, in this order on the bus.  Afterwards the line is an
    input, its sticky bit is clear and its interrupt-enable bit is set.  A
    second call leaves the device exactly as the first one left it and
    neither call dispatches an interrupt. *)
Theorem C5_irq_enable_sequence (n hwirq : Z) (w : world) :
  0 <= hwirq < n -> n <= MSS_NUM_GPIO ->
  let enable := microsemi_mss_gpio_irq_enable (layout n) hwirq in
  let w1 := exec enable w in
  let w2 := exec enable w1 in
  let c1 := eval (MSS_GPIO_IOREAD hwirq)
              (exec (microsemi_mss_gpio_direction_input (layout n) hwirq) w) in
  let s := u32 (mem w IRQ_WORD) in
  log w1 = log (exec (microsemi_mss_gpio_direction_input (layout n) hwirq) w) ++
           [IoRead IRQ_WORD s; IoWrite IRQ_WORD (u32 (Z.lor s (BIT hwirq)));
            IoRead hwirq c1;
            IoWrite hwirq (u32 (Z.lor c1 (BIT MSS_GPIO_X_CFG_EN_INT)))] /\
  (Z.testbit (mem w1 hwirq) MSS_GPIO_X_CFG_BIT_EN_IN = true /\
   Z.testbit (mem w1 hwirq) MSS_GPIO_X_CFG_BIT_EN_OUT = false /\
   Z.testbit (mem w1 hwirq) MSS_GPIO_X_CFG_BIT_GPIO_OE = false /\
   Z.testbit (mem w1 IRQ_WORD) hwirq = false /\
   Z.testbit (mem w1 hwirq) MSS_GPIO_X_CFG_EN_INT = true) /\
  (Z.testbit (mem w2 IRQ_WORD) hwirq = false /\
   Z.testbit (mem w2 hwirq) MSS_GPIO_X_CFG_EN_INT = true) /\
  (forall a, mem w2 a = mem w1 a) /\
  dispatched (log w1) = dispatched (log w) /\
  dispatched (log w2) = dispatched (log w1).
Proof.
  intros Hidx Hn enable w1 w2 c1 s. unfold MSS_NUM_GPIO in Hn.
  assert (Hii : hwirq <> IRQ_WORD) by (unfold IRQ_WORD; cbn; lia).
  assert (Hc1 : c1 = input_cfg (u32 (mem w hwirq))).
  { subst c1. unfold eval, exec. rewrite direction_input_run by lia.
    unfold MSS_GPIO_IOREAD. cbn [fst snd mem].
    rewrite hw_store_same by assumption. apply input_cfg_u32. }
  assert (Hm1 : forall u, mem (exec (microsemi_mss_gpio_irq_enable (layout n) hwirq) u) hwirq
                  = assigned (input_cfg (u32 (mem u hwirq))) MSS_GPIO_X_CFG_EN_INT 1).
  { intros u. unfold exec. rewrite irq_enable_run by lia. cbn [snd mem].
    now apply hw_store_same. }
  assert (Hs1 : forall u, mem (exec (microsemi_mss_gpio_irq_enable (layout n) hwirq) u) IRQ_WORD
                  = Z.land (mem u IRQ_WORD)
                      (Z.lnot (assigned (u32 (mem u IRQ_WORD)) hwirq 1))).
  { intros u. unfold exec. rewrite irq_enable_run by lia. cbn [snd mem].
    rewrite hw_store_other by congruence. rewrite hw_store_irq.
    rewrite hw_store_other by congruence. reflexivity. }
  assert (Ho1 : forall u a, a <> hwirq -> a <> IRQ_WORD ->
                  mem (exec (microsemi_mss_gpio_irq_enable (layout n) hwirq) u) a = mem u a).
  { intros u a Ha1 Ha2. unfold exec. rewrite irq_enable_run by lia. cbn [snd mem].
    rewrite !hw_store_other by assumption. reflexivity. }
  assert (Hd : forall u, dispatched (log (exec (microsemi_mss_gpio_irq_enable (layout n) hwirq) u))
                 = dispatched (log u)).
  { intros u. unfold exec. rewrite irq_enable_run by lia. cbn [snd log].
    rewrite dispatched_app. cbn. apply app_nil_r. }
  subst w2 w1 enable.
  split.
  { unfold exec at 1. rewrite irq_enable_run by lia. cbn [snd log].
    unfold exec. rewrite direction_input_run by lia. cbn [snd log].
    rewrite Hc1. rewrite <- app_assoc. reflexivity. }
  split.
  { rewrite Hm1, Hs1.
    rewrite !enabled_cfg_bit
      by (unfold MSS_GPIO_X_CFG_BIT_EN_IN, MSS_GPIO_X_CFG_BIT_EN_OUT,
            MSS_GPIO_X_CFG_BIT_GPIO_OE, MSS_GPIO_X_CFG_EN_INT; lia).
    rewrite cleared_status_bit by lia. repeat split. }
  split.
  { rewrite Hm1, Hs1.
    rewrite enabled_cfg_bit by (unfold MSS_GPIO_X_CFG_EN_INT; lia).
    rewrite cleared_status_bit by lia. split; reflexivity. }
  split.
  { intros a. destruct (Z.eq_dec a hwirq) as [-> | Ha1].
    - rewrite (Hm1 (exec _ w)), (Hm1 w). apply enabled_cfg_idem.
    - destruct (Z.eq_dec a IRQ_WORD) as [-> | Ha2].
      + rewrite (Hs1 (exec _ w)), (Hs1 w). apply cleared_status_idem. lia.
      + now rewrite Ho1. }
  split; apply Hd.
Qed.

Lemma C5_irq_enable_witness :
  0 <= 3 < 8 /\ 8 <= MSS_NUM_GPIO /\
  Z.testbit
    (mem (exec (microsemi_mss_gpio_irq_enable (layout 8) 3)
            (power_on [(3, 5); (IRQ_WORD, 255)])) IRQ_WORD) 3 = false.
Proof.
  split; [lia |]. split; [unfold MSS_NUM_GPIO; lia |].
  apply (C5_irq_enable_sequence 8 3 (power_on [(3, 5); (IRQ_WORD, 255)]));
    unfold MSS_NUM_GPIO; lia.
Defined.

(** C9: for an in-range line, [irq_disable] clears the interrupt-enable bit
    of the line's config register and nothing else: every other bit of that
    register and every other register (status, output, input, the config
    registers of the other lines) keep their contents.  A second call
    leaves the device as the first one left it. *)
Theorem C9_irq_disable_frame (n hwirq : Z) (w : world) :
  0 <= hwirq < n -> n <= MSS_NUM_GPIO ->
  let disable := microsemi_mss_gpio_irq_disable (layout n) hwirq in
  let w1 := exec disable w in
  let w2 := exec disable w1 in
  Z.testbit (mem w1 hwirq) MSS_GPIO_X_CFG_EN_INT = false /\
  (forall k, 0 <= k < 32 -> k <> MSS_GPIO_X_CFG_EN_INT ->
             Z.testbit (mem w1 hwirq) k = Z.testbit (mem w hwirq) k) /\
  mem w1 IRQ_WORD = mem w IRQ_WORD /\
  mem w1 OUT_WORD = mem w OUT_WORD /\
  (forall a, a <> hwirq -> mem w1 a = mem w a) /\
  Z.testbit (mem w2 hwirq) MSS_GPIO_X_CFG_EN_INT = false /\
  (forall a, mem w2 a = mem w1 a) /\
  writes (log w1) = writes (log w) ++
    [IoWrite hwirq (u32 (Z.land (u32 (mem w hwirq))
                           (Z.lnot (BIT MSS_GPIO_X_CFG_EN_INT))))].
Proof.
  intros Hidx Hn disable w1 w2. unfold MSS_NUM_GPIO in Hn.
  assert (Hii : hwirq <> IRQ_WORD) by (unfold IRQ_WORD; cbn; lia).
  assert (Hio : hwirq <> OUT_WORD) by (unfold OUT_WORD; cbn; lia).
  assert (Hm : forall u, mem (exec (microsemi_mss_gpio_irq_disable (layout n) hwirq) u) hwirq
                 = assigned (u32 (mem u hwirq)) MSS_GPIO_X_CFG_EN_INT 0).
  { intros u. unfold exec. rewrite irq_disable_run by lia. cbn [snd mem].
    now apply hw_store_same. }
  assert (Ho : forall u a, a <> hwirq ->
                 mem (exec (microsemi_mss_gpio_irq_disable (layout n) hwirq) u) a = mem u a).
  { intros u a Ha. unfold exec. rewrite irq_disable_run by lia. cbn [snd mem].
    now apply hw_store_other. }
  assert (Hb : forall c k, 0 <= k < 32 ->
                 Z.testbit (assigned (u32 c) MSS_GPIO_X_CFG_EN_INT 0) k
                 = if k =? MSS_GPIO_X_CFG_EN_INT then false else Z.testbit c k).
  { intros c k Hk. rewrite assigned_bit by (unfold MSS_GPIO_X_CFG_EN_INT; lia).
    rewrite testbit_u32 by lia. reflexivity. }
  subst w2 w1 disable.
  split. { rewrite Hm, Hb by (unfold MSS_GPIO_X_CFG_EN_INT; lia). reflexivity. }
  split.
  { intros k Hk Hne. rewrite Hm, Hb by assumption.
    destruct (Z.eqb_spec k MSS_GPIO_X_CFG_EN_INT); [contradiction | reflexivity]. }
  split. { apply Ho. congruence. }
  split. { apply Ho. congruence. }
  split. { intros a Ha. now apply Ho. }
  split. { rewrite Hm, Hb by (unfold MSS_GPIO_X_CFG_EN_INT; lia). reflexivity. }
  split.
  { intros a. destruct (Z.eq_dec a hwirq) as [-> | Ha].
    - rewrite (Hm (exec _ w)), (Hm w). apply bits_split_eq.
      + intros k Hk. rewrite !Hb by assumption.
        destruct (k =? MSS_GPIO_X_CFG_EN_INT); reflexivity.
      + intros k Hk. rewrite !assigned_high by assumption. reflexivity.
    - now rewrite Ho. }
  unfold exec. rewrite irq_disable_run by lia. cbn [snd log].
  unfold writes. rewrite filter_app. reflexivity.
Qed.

Lemma C9_irq_disable_witness :
  0 <= 4 < 8 /\ 8 <= MSS_NUM_GPIO /\
  Z.testbit
    (mem (exec (microsemi_mss_gpio_irq_disable (layout 8) 4)
            (power_on [(4, 74)])) 4) MSS_GPIO_X_CFG_EN_INT = false.
Proof.
  split; [lia |]. split; [unfold MSS_NUM_GPIO; lia |].
  apply (C9_irq_disable_frame 8 4 (power_on [(4, 74)])); unfold MSS_NUM_GPIO; lia.
Defined.

Lemma to_int_small (x : Z) : 0 <= x < 2 ^ 31 -> to_int x = x.
Proof. intros Hx. unfold to_int. rewrite Z.mod_small by lia. lia. Qed.

(** The mask [irq_set_type] selects for a trigger kind. *)
Lemma irq_set_type_run (n hwirq type : Z) (w : world) :
  0 <= hwirq < n -> n <= 32 ->
  microsemi_mss_gpio_irq_set_type (layout n) hwirq type w =
  (0,
   let m := Z.shiftl (spec_trigger_code type) 5 in
   let c := u32 (Z.lor (u32 (mem w hwirq)) m) in
   mkWorld (hw_store (mem w) hwirq c)
           (log w ++ [IoRead hwirq (u32 (mem w hwirq)); IoWrite hwirq c])).
Proof.
  intros Hidx Hn. unfold microsemi_mss_gpio_irq_set_type.
  rewrite to_int_small by lia. cbn [gc_ngpio gpio_cfg_base layout].
  rewrite in_range_geb by lia.
  destruct (Z.ltb_spec hwirq 0); [lia |]. cbn [orb].
  unfold bind, MSS_GPIO_IOREAD, MSS_GPIO_IOWRITE, ret, MSS_GPIO_INDEX_TO_CFG, CFG_WORD.
  cbn [mem log]. change (0 / 4 + hwirq) with (0 + hwirq). rewrite Z.add_0_l.
  rewrite <- app_assoc. cbv zeta.
  assert (Hm : (if type =? IRQ_TYPE_EDGE_BOTH then MSS_GPIO_INTR_EDGE_BOTH_MASK
                else if type =? IRQ_TYPE_EDGE_FALLING then MSS_GPIO_INTR_EDGE_NEGATIVE_MASK
                else if type =? IRQ_TYPE_EDGE_RISING then MSS_GPIO_INTR_EDGE_POSITIVE_MASK
                else if type =? IRQ_TYPE_LEVEL_HIGH then MSS_GPIO_INTR_LEVEL_HIGH_MASK
                else MSS_GPIO_INTR_LEVEL_LOW_MASK)
               = Z.shiftl (spec_trigger_code type) 5).
  { unfold spec_trigger_code, IRQ_TYPE_EDGE_BOTH, IRQ_TYPE_EDGE_FALLING,
      IRQ_TYPE_EDGE_RISING, IRQ_TYPE_LEVEL_HIGH, IRQ_TYPE_LEVEL_LOW.
    destruct (Z.eqb_spec type 3); [subst; reflexivity |].
    destruct (Z.eqb_spec type 2); [subst; reflexivity |].
    destruct (Z.eqb_spec type 1); [subst; reflexivity |].
    destruct (Z.eqb_spec type 4); [subst; reflexivity |].
    destruct (Z.eqb_spec type 8); [subst; reflexivity |].
    reflexivity. }
  rewrite Hm. reflexivity.
Qed.

Lemma spec_trigger_code_range (type : Z) : 0 <= spec_trigger_code type <= 4.
Proof.
  unfold spec_trigger_code.
  repeat match goal with |- context [if ?b then _ else _] => destruct b end; lia.
Qed.

(** The shifted code occupies bits 5 to 7 only. *)
Lemma trigger_field_position (type k : Z) :
  Z.testbit (Z.shiftl (spec_trigger_code type) 5) k = true -> 5 <= k <= 7.
Proof.
  intros Hb. pose proof (spec_trigger_code_range type) as Hr.
  destruct (Z.ltb_spec k 0) as [Hneg | Hk0].
  { rewrite Z.testbit_neg_r in Hb by assumption. discriminate. }
  destruct (Z.ltb_spec k 5) as [Hlo | Hge].
  { rewrite Z.shiftl_spec_low in Hb by assumption. discriminate. }
  split; [assumption |].
  destruct (Z.leb_spec k 7) as [Hle | Hhi]; [assumption | exfalso].
  rewrite Z.shiftl_spec in Hb by assumption.
  destruct (Z.eq_dec (spec_trigger_code type) 0) as [H0 | Hn0].
  - rewrite H0, Z.bits_0 in Hb. discriminate.
  - rewrite Z.bits_above_log2 in Hb; [discriminate | lia |].
    apply Z.lt_le_trans with 3; [| lia].
    apply Z.log2_lt_pow2; [lia |]. change (2 ^ 3) with 8. lia.
Qed.

(** C3: for an in-range line, [irq_set_type] returns 0 and stores the old
    config word ORed with the trigger code of the requested kind shifted
    to bits 5 to 7: level-high 0, level-low 1, edge-rising 2, edge-falling
    3, edge-both 4, and level-low for any other request.  No bit of the old
    word is cleared, so after two calls the codes of both requests are
    ORed together in the register. *)
Theorem C3_irq_set_type_accumulates (n hwirq type type' : Z) (w : world) :
  0 <= hwirq < n -> n <= MSS_NUM_GPIO ->
  let set t := microsemi_mss_gpio_irq_set_type (layout n) hwirq t in
  let field t := Z.shiftl (spec_trigger_code t) 5 in
  eval (set type) w = 0 /\
  mem (exec (set type) w) hwirq = u32 (Z.lor (u32 (mem w hwirq)) (field type)) /\
  (forall k, Z.testbit (field type) k = true -> 5 <= k <= 7) /\
  (forall k, 0 <= k < 32 ->
     Z.testbit (mem (exec (set type) w) hwirq) k
     = Z.testbit (mem w hwirq) k || Z.testbit (field type) k) /\
  (forall k, 0 <= k < 32 ->
     Z.testbit (mem (exec (set type') (exec (set type) w)) hwirq) k
     = Z.testbit (mem w hwirq) k
       || Z.testbit (field type) k || Z.testbit (field type') k) /\
  (forall a, a <> hwirq -> mem (exec (set type) w) a = mem w a).
Proof.
  intros Hidx Hn set field. unfold MSS_NUM_GPIO in Hn.
  assert (Hii : hwirq <> IRQ_WORD) by (unfold IRQ_WORD; cbn; lia).
  assert (Hm : forall t u, mem (exec (set t) u) hwirq
                 = u32 (Z.lor (u32 (mem u hwirq)) (field t))).
  { intros t u. subst set. unfold exec. cbv beta. rewrite irq_set_type_run by lia.
    cbn [snd mem]. rewrite hw_store_same by assumption. reflexivity. }
  assert (Hb : forall t u k, 0 <= k < 32 ->
                 Z.testbit (mem (exec (set t) u) hwirq) k
                 = Z.testbit (mem u hwirq) k || Z.testbit (field t) k).
  { intros t u k Hk. rewrite Hm. rewrite testbit_u32, Z.lor_spec, testbit_u32 by lia.
    reflexivity. }
  split.
  { subst set. unfold eval. cbv beta. now rewrite irq_set_type_run by lia. }
  split. { apply Hm. }
  split. { intros k Hk. now apply trigger_field_position in Hk. }
  split. { intros k Hk. now apply Hb. }
  split. { intros k Hk. rewrite Hb by assumption. rewrite Hb by assumption. reflexivity. }
  intros a Ha. subst set. unfold exec. cbv beta. rewrite irq_set_type_run by lia.
  cbn [snd mem]. now apply hw_store_other.
Qed.

Lemma C3_irq_set_type_witness :
  0 <= 3 < 8 /\ 8 <= MSS_NUM_GPIO /\
  mem (exec (microsemi_mss_gpio_irq_set_type (layout 8) 3 IRQ_TYPE_EDGE_RISING)
         (power_on [(3, 2)])) 3 = 66.
Proof.
  split; [lia |]. split; [unfold MSS_NUM_GPIO; lia |].
  apply (C3_irq_set_type_accumulates 8 3 IRQ_TYPE_EDGE_RISING IRQ_TYPE_EDGE_FALLING
           (power_on [(3, 2)])); unfold MSS_NUM_GPIO; lia.
Defined.

(** Two requests in a row: level-low then edge-rising leaves the code of
    edge-falling in the trigger field. *)
Example set_type_level_low_then_rising :
  let c := layout 8 in
  mem (exec (microsemi_mss_gpio_irq_set_type c 3 IRQ_TYPE_LEVEL_LOW ;;
             microsemi_mss_gpio_irq_set_type c 3 IRQ_TYPE_EDGE_RISING)
         (power_on [])) 3
  = MSS_GPIO_INTR_EDGE_NEGATIVE_MASK.
Proof. reflexivity. Qed.

(** ** The interrupt handler *)

Lemma irq_service_run (n offset : Z) (w : world) :
  microsemi_gpio_irq_service (layout n) offset w =
  (tt,
   let s := u32 (mem w IRQ_WORD) in
   mkWorld (hw_store (mem w) IRQ_WORD (assigned s offset 1))
           (log w ++ [IoRead IRQ_WORD s; IoWrite IRQ_WORD (assigned s offset 1);
                      HandleIrq offset])).
Proof.
  unfold microsemi_gpio_irq_service, bind. rewrite assign_bit_run.
  cbn [gpio_irq_base layout]. unfold generic_handle_irq, emit. cbn [mem log].
  rewrite <- app_assoc. reflexivity.
Qed.

Lemma u32_zero_bits (x : Z) :
  (forall k, 0 <= k < 32 -> Z.testbit x k = false) -> u32 x = 0.
Proof.
  intros H. change 0 with (u32 0). apply u32_ext. intros k Hk.
  rewrite Z.bits_0. now apply H.
Qed.

Lemma exec_for_each_cons {A : Type} (body : A -> M unit) (x : A) (l : list A) (w : world) :
  exec (for_each (x :: l) body) w = exec (for_each l body) (exec (body x) w).
Proof.
  unfold exec. cbn [for_each]. unfold bind. destruct (body x w). reflexivity.
Qed.

Lemma irq_service_mem (n offset : Z) (w : world) :
  mem (exec (microsemi_gpio_irq_service (layout n) offset) w)
  = hw_store (mem w) IRQ_WORD (assigned (u32 (mem w IRQ_WORD)) offset 1).
Proof. unfold exec. now rewrite irq_service_run. Qed.

Lemma irq_service_log (n offset : Z) (w : world) :
  log (exec (microsemi_gpio_irq_service (layout n) offset) w)
  = log w ++ [IoRead IRQ_WORD (u32 (mem w IRQ_WORD));
              IoWrite IRQ_WORD (assigned (u32 (mem w IRQ_WORD)) offset 1);
              HandleIrq offset].
Proof. unfold exec. now rewrite irq_service_run. Qed.

Section Service.

Variable n : Z.

(** The loop dispatches the lines of its list, in the order of the list,
    and stores to no register but the status register. *)
Lemma service_loop_dispatched (l : list Z) (w : world) :
  dispatched (log (exec (for_each l (microsemi_gpio_irq_service (layout n))) w))
  = dispatched (log w) ++ l.
Proof.
  revert w. induction l as [| o l IH]; intros w.
  - cbn. now rewrite app_nil_r.
  - rewrite exec_for_each_cons, IH.
    rewrite irq_service_log, dispatched_app. cbn.
    rewrite <- app_assoc. reflexivity.
Qed.

Lemma service_loop_frame (l : list Z) (w : world) (a : Z) :
  a <> IRQ_WORD ->
  mem (exec (for_each l (microsemi_gpio_irq_service (layout n))) w) a = mem w a.
Proof.
  intros Ha. revert w. induction l as [| o l IH]; intros w.
  - reflexivity.
  - rewrite exec_for_each_cons, IH.
    rewrite irq_service_mem. now apply hw_store_other.
Qed.

(** One pass of the body already leaves nothing pending: the store
    asserts every bit that was read as pending. *)
Lemma service_loop_status (l : list Z) (w : world) :
  l <> [] -> Forall (fun o => 0 <= o) l ->
  u32 (mem (exec (for_each l (microsemi_gpio_irq_service (layout n))) w) IRQ_WORD)
  = 0.
Proof.
  revert w. induction l as [| o l IH]; intros w Hne Hpos; [contradiction |].
  inversion Hpos as [| ? ? Ho Hl]; subst.
  rewrite exec_for_each_cons.
  destruct l as [| o' l'].
  - unfold exec at 1. cbn [for_each ret snd].
    rewrite irq_service_mem, hw_store_irq. apply u32_zero_bits. intros k Hk.
    now apply cleared_status_bit.
  - apply IH; [discriminate | assumption].
Qed.

Lemma service_loop_high (l : list Z) (w : world) (k : Z) :
  32 <= k ->
  Z.testbit
    (mem (exec (for_each l (microsemi_gpio_irq_service (layout n))) w) IRQ_WORD) k
  = Z.testbit (mem w IRQ_WORD) k.
Proof.
  intros Hk. revert w. induction l as [| o l IH]; intros w.
  - reflexivity.
  - rewrite exec_for_each_cons, IH.
    rewrite irq_service_mem, hw_store_irq.
    now apply cleared_status_high.
Qed.

End Service.

Lemma filter_none {A : Type} (f : A -> bool) (l : list A) :
  (forall x, In x l -> f x = false) -> filter f l = [].
Proof.
  induction l as [| x l IH]; intros H; [reflexivity |].
  cbn. rewrite (H x) by now left. apply IH. intros y Hy. apply H. now right.
Qed.

Lemma set_bits_nonneg (s size : Z) : Forall (fun o => 0 <= o) (set_bits s size).
Proof.
  unfold set_bits. apply Forall_forall. intros o Ho.
  apply filter_In in Ho. destruct Ho as [Ho _].
  apply in_map_iff in Ho. destruct Ho as [i [<- _]]. lia.
Qed.

(** Bits of the status word at or above [size] do not matter to the scan
    when they are clear. *)
Lemma set_bits_stable (s size size' : Z) :
  0 <= size <= size' ->
  (forall k, size <= k -> Z.testbit s k = false) ->
  set_bits s size' = set_bits s size.
Proof.
  intros Hs Hclear. unfold set_bits.
  replace (Z.to_nat size') with (Z.to_nat size + (Z.to_nat size' - Z.to_nat size))%nat
    by lia.
  rewrite seq_app, map_app, filter_app.
  rewrite (filter_none _ (map Z.of_nat (seq (0 + Z.to_nat size) _))).
  - apply app_nil_r.
  - intros x Hx. apply in_map_iff in Hx. destruct Hx as [i [<- Hi]].
    apply in_seq in Hi. apply Hclear. lia.
Qed.

Lemma status_2_5_9_bit (k : Z) :
  Z.testbit (Z.lor (BIT 2) (Z.lor (BIT 5) (BIT 9))) k
  = (k =? 2) || (k =? 5) || (k =? 9).
Proof.
  rewrite !Z.lor_spec, !testbit_BIT by lia.
  rewrite (Z.eqb_sym 2 k), (Z.eqb_sym 5 k), (Z.eqb_sym 9 k).
  now rewrite orb_assoc.
Qed.

Lemma set_bits_2_5_9 (n : Z) :
  10 <= n -> set_bits (Z.lor (BIT 2) (Z.lor (BIT 5) (BIT 9))) n = [2; 5; 9].
Proof.
  intros Hn. rewrite (set_bits_stable _ 10 n).
  - reflexivity.
  - lia.
  - intros k Hk. rewrite status_2_5_9_bit.
    destruct (Z.eqb_spec k 2); [lia |]. destruct (Z.eqb_spec k 5); [lia |].
    destruct (Z.eqb_spec k 9); [lia |]. reflexivity.
Qed.

Lemma irq_mask_u32 (v : Z) : Z.land (u32 v) MSS_GPIO_IRQ_MASK = u32 v.
Proof.
  change MSS_GPIO_IRQ_MASK with (Z.ones 32).
  rewrite Z.land_ones by lia. apply u32_u32.
Qed.

Lemma irq_handler_run (n : Z) (w : world) :
  microsemi_gpio_irq_handler (layout n) w =
  (IRQ_HANDLED,
   exec (for_each (set_bits (u32 (mem w IRQ_WORD)) n)
           (microsemi_gpio_irq_service (layout n)))
        (mkWorld (mem w) (log w ++ [IoRead IRQ_WORD (u32 (mem w IRQ_WORD))]))).
Proof.
  unfold microsemi_gpio_irq_handler, bind at 1, MSS_GPIO_IOREAD.
  cbn [gpio_irq_base gc_ngpio layout]. rewrite irq_mask_u32.
  unfold bind, for_each_set_bit, exec, ret.
  destruct (for_each _ _ _) as [[] w']. reflexivity.
Qed.

(** For any status word the handler dispatches the pending lines below
    the line count, in increasing order. *)
Lemma irq_handler_dispatched (n : Z) (w : world) :
  dispatched (log (exec (microsemi_gpio_irq_handler (layout n)) w))
  = dispatched (log w) ++ set_bits (u32 (mem w IRQ_WORD)) n.
Proof.
  unfold exec at 1. rewrite irq_handler_run. cbn [snd].
  rewrite service_loop_dispatched. cbn [log]. rewrite dispatched_app. cbn.
  now rewrite app_nil_r.
Qed.

(** C4: with at least ten (and at most 32) lines and exactly bits 2, 5 and
    9 pending, one run of the handler dispatches lines 2, 5 and 9 in this
    order and nothing else, leaves those three status bits clear, changes
    no other status bit and no other register; with nothing pending it
    dispatches nothing and only reads the status register. *)
Theorem C4_irq_handler_dispatch (n : Z) (w : world) :
  10 <= n <= MSS_NUM_GPIO ->
  let w' := exec (microsemi_gpio_irq_handler (layout n)) w in
  (u32 (mem w IRQ_WORD) = Z.lor (BIT 2) (Z.lor (BIT 5) (BIT 9)) ->
     dispatched (log w') = dispatched (log w) ++ [2; 5; 9] /\
     (forall k, 0 <= k ->
        Z.testbit (mem w' IRQ_WORD) k
        = Z.testbit (mem w IRQ_WORD) k && negb ((k =? 2) || (k =? 5) || (k =? 9))) /\
     (forall a, a <> IRQ_WORD -> mem w' a = mem w a)) /\
  (u32 (mem w IRQ_WORD) = 0 ->
     dispatched (log w') = dispatched (log w) /\
     writes (log w') = writes (log w) /\
     log w' = log w ++ [IoRead IRQ_WORD 0] /\
     mem w' = mem w).
Proof.
  intros Hn w'. subst w'. unfold MSS_NUM_GPIO in Hn. unfold exec at 1 2 3 4 5 6 7.
  rewrite irq_handler_run. cbn [snd]. split.
  - intros Hs. rewrite Hs, set_bits_2_5_9 by lia.
    split; [| split].
    + rewrite service_loop_dispatched. cbn [log]. rewrite dispatched_app. cbn.
      now rewrite app_nil_r.
    + intros k Hk. destruct (Z.ltb_spec k 32) as [Hlt | Hge].
      * assert (H0 : u32 (mem (exec (for_each [2; 5; 9]
                           (microsemi_gpio_irq_service (layout n)))
                         (mkWorld (mem w)
                            (log w ++ [IoRead IRQ_WORD (Z.lor (BIT 2) (Z.lor (BIT 5) (BIT 9)))])))
                         IRQ_WORD) = 0).
        { apply service_loop_status; [discriminate |].
          repeat constructor; lia. }
        rewrite <- (testbit_u32 (mem (exec _ _) IRQ_WORD)) by lia.
        rewrite H0, Z.bits_0.
        rewrite <- (testbit_u32 (mem w IRQ_WORD)) by lia.
        rewrite Hs, status_2_5_9_bit.
        destruct ((k =? 2) || (k =? 5) || (k =? 9)); reflexivity.
      * rewrite service_loop_high by lia. cbn [mem].
        destruct (Z.eqb_spec k 2); [lia |]. destruct (Z.eqb_spec k 5); [lia |].
        destruct (Z.eqb_spec k 9); [lia |]. cbn. now rewrite andb_true_r.
    + intros a Ha. now rewrite service_loop_frame.
  - intros Hs. rewrite Hs.
    assert (He : set_bits 0 n = []).
    { unfold set_bits. apply filter_none. intros x _. apply Z.bits_0. }
    rewrite He. cbn [for_each]. unfold exec, ret. cbn [snd log mem].
    repeat split.
    + rewrite dispatched_app. cbn. now rewrite app_nil_r.
    + unfold writes. rewrite filter_app. cbn. now rewrite app_nil_r.
Qed.

Lemma C4_irq_handler_witness :
  10 <= 12 <= MSS_NUM_GPIO /\
  dispatched (log (exec (microsemi_gpio_irq_handler (layout 12))
                     (power_on [(IRQ_WORD, 548)]))) = [2; 5; 9].
Proof.
  split; [unfold MSS_NUM_GPIO; lia |].
  apply (C4_irq_handler_dispatch 12 (power_on [(IRQ_WORD, 548)]));
    [unfold MSS_NUM_GPIO; lia | reflexivity].
Defined.

(** The store that the loop body issues for [offset] carries the whole
    status word it has just read, with the bit of [offset] ORed in. *)
Lemma irq_service_writes (n offset : Z) (w : world) :
  writes (log (exec (microsemi_gpio_irq_service (layout n) offset) w))
  = writes (log w) ++
    [IoWrite IRQ_WORD (u32 (Z.lor (u32 (mem w IRQ_WORD)) (BIT offset)))].
Proof.
  rewrite irq_service_log. unfold writes. rewrite filter_app. reflexivity.
Qed.

(** C1 does not hold of the handler.  With lines 2, 5 and 9 pending the
    first store to the status register, issued to clear line 2, asserts
    bits 2, 5 and 9 instead of bit 2 alone; in general the store for a
    line asserts every bit read as pending just before it.  As a result a
    line that latches after the handler's first read is cleared by the
    store for another line and is never dispatched. *)
Theorem C1_status_store_asserts_all_pending :
  writes (log (exec (microsemi_gpio_irq_handler (layout 10))
                 (power_on [(IRQ_WORD, 548)])))
  = [IoWrite IRQ_WORD 548; IoWrite IRQ_WORD 32; IoWrite IRQ_WORD 512] /\
  548 <> BIT 2 /\
  Z.testbit 548 5 = true /\
  (forall n offset w, 0 <= offset < 32 ->
     forall k, 0 <= k < 32 -> Z.testbit (mem w IRQ_WORD) k = true ->
     exists v,
       writes (log (exec (microsemi_gpio_irq_service (layout n) offset) w))
       = writes (log w) ++ [IoWrite IRQ_WORD v] /\
       Z.testbit v k = true) /\
  (let c := layout 10 in
   let w0 := power_on [(IRQ_WORD, BIT 2)] in
   let status := Z.land (eval (MSS_GPIO_IOREAD (gpio_irq_base c)) w0) MSS_GPIO_IRQ_MASK in
   let w1 := hw_raise 5 (exec (MSS_GPIO_IOREAD (gpio_irq_base c)) w0) in
   let w2 := exec (for_each_set_bit status (gc_ngpio c)
                     (microsemi_gpio_irq_service c)) w1 in
   Z.testbit (mem w1 IRQ_WORD) 5 = true /\
   dispatched (log w2) = [2] /\
   Z.testbit (mem w2 IRQ_WORD) 5 = false).
Proof.
  split; [reflexivity |]. split; [discriminate |]. split; [reflexivity |].
  split.
  - intros n offset w Ho k Hk Hb. eexists. split.
    + apply irq_service_writes.
    + rewrite testbit_u32, Z.lor_spec, testbit_u32, Hb by lia. reflexivity.
  - repeat split.
Qed.

(** ** Bring-up *)

Lemma probe_disable_run (n i : Z) (w : world) :
  microsemi_mss_gpio_probe_disable (layout n) i w =
  (tt, mkWorld (hw_store (mem w) i (assigned (u32 (mem w i)) MSS_GPIO_X_CFG_EN_INT 0))
               (log w ++ [IoRead i (u32 (mem w i));
                          IoWrite i (assigned (u32 (mem w i)) MSS_GPIO_X_CFG_EN_INT 0)])).
Proof.
  unfold microsemi_mss_gpio_probe_disable, bind, MSS_GPIO_IOREAD, MSS_GPIO_IOWRITE,
    MSS_GPIO_INDEX_TO_CFG, CFG_WORD.
  cbn [gpio_cfg_base layout mem log]. change (0 / 4 + i) with (0 + i).
  rewrite Z.add_0_l, <- app_assoc. reflexivity.
Qed.

(** The loop that ends the probe function, started at line [a] for [len]
    lines: each of these config registers is stored once, with its
    interrupt-enable bit cleared, and nothing else is stored. *)
Lemma probe_loop_mem (n : Z) (len a : nat) (w : world) (x : Z) :
  Z.of_nat a + Z.of_nat len <= 32 ->
  mem (exec (for_each (map Z.of_nat (seq a len))
               (microsemi_mss_gpio_probe_disable (layout n))) w) x
  = if (Z.of_nat a <=? x) && (x <? Z.of_nat a + Z.of_nat len)
    then assigned (u32 (mem w x)) MSS_GPIO_X_CFG_EN_INT 0
    else mem w x.
Proof.
  revert a w. induction len as [| len IH]; intros a w Hle.
  - cbn [seq map for_each]. unfold exec, ret. cbn [snd].
    destruct (Z.leb_spec (Z.of_nat a) x); destruct (Z.ltb_spec x (Z.of_nat a + Z.of_nat 0));
      cbn [andb]; try reflexivity; lia.
  - cbn [seq map]. rewrite exec_for_each_cons. rewrite IH by lia.
    unfold exec at 1 2. rewrite probe_disable_run. cbn [snd mem].
    assert (Ha : Z.of_nat a <> IRQ_WORD) by (unfold IRQ_WORD; cbn; lia).
    destruct (Z.leb_spec (Z.of_nat (S a)) x);
      destruct (Z.ltb_spec x (Z.of_nat (S a) + Z.of_nat len));
      destruct (Z.leb_spec (Z.of_nat a) x);
      destruct (Z.ltb_spec x (Z.of_nat a + Z.of_nat (S len)));
      cbn [andb]; try lia;
      first [ rewrite hw_store_other by lia; reflexivity
            | replace x with (Z.of_nat a) by lia; now apply hw_store_same ].
Qed.

(** C8: the probe function never succeeds with more than 32 lines, and
    returns [-EINVAL] without touching the device when the steps before the
    line-count check succeeded; whenever it succeeds, whatever the device
    held, the config register of every line has its interrupt-enable bit
    clear and its other bits as before. *)
Theorem C8_probe_disables_interrupts (pdev : platform) (w : world) :
  (of_irq_count pdev > MSS_NUM_GPIO ->
     (exists err, eval (microsemi_mss_gpio_probe pdev) w = inl err) /\
     exec (microsemi_mss_gpio_probe pdev) w = w /\
     (devm_kzalloc_ok pdev = true ->
      devm_ioremap_resource_err pdev = None ->
      devm_clk_get_err pdev = None ->
      clk_prepare_enable_ret pdev = 0 ->
      eval (microsemi_mss_gpio_probe pdev) w = inl (- EINVAL))) /\
  (forall mss_gpio,
     eval (microsemi_mss_gpio_probe pdev) w = inr mss_gpio ->
     of_irq_count pdev <= MSS_NUM_GPIO /\
     forall i, 0 <= i < of_irq_count pdev ->
       let w' := exec (microsemi_mss_gpio_probe pdev) w in
       Z.testbit (mem w' i) MSS_GPIO_X_CFG_EN_INT = false /\
       (forall k, 0 <= k < 32 -> k <> MSS_GPIO_X_CFG_EN_INT ->
          Z.testbit (mem w' i) k = Z.testbit (mem w i) k)).
Proof.
  unfold eval, exec, microsemi_mss_gpio_probe.
  destruct (devm_kzalloc_ok pdev); cbn [negb].
  2:{ split.
      - intros _. split; [eexists; reflexivity |]. split; [reflexivity |]. discriminate.
      - intros c Hc. discriminate. }
  destruct (devm_ioremap_resource_err pdev) as [e1 |].
  { split.
    - intros _. split; [eexists; reflexivity |]. split; [reflexivity |].
      intros _ H. discriminate.
    - intros c Hc. discriminate. }
  destruct (devm_clk_get_err pdev) as [e2 |].
  { split.
    - intros _. split; [eexists; reflexivity |]. split; [reflexivity |].
      intros _ _ H. discriminate.
    - intros c Hc. discriminate. }
  destruct (Z.eqb_spec (clk_prepare_enable_ret pdev) 0) as [Hclk | Hclk]; cbn [negb].
  2:{ split.
      - intros _. split; [eexists; reflexivity |]. split; [reflexivity |].
        intros _ _ _ H. contradiction.
      - intros c Hc. discriminate. }
  destruct (Z.gtb_spec (of_irq_count pdev) MSS_NUM_GPIO) as [Hgt | Hle].
  { split.
    - intros _. split; [eexists; reflexivity |]. split; reflexivity.
    - intros c Hc. discriminate. }
  split; [intros Hgt; lia |].
  destruct (devm_irq_alloc_descs_ret pdev <? 0); [intros c Hc; discriminate |].
  destruct (negb (gpiochip_add_data_ret pdev =? 0)); [intros c Hc; discriminate |].
  intros c _. split; [assumption |]. intros i Hi.
  unfold bind. unfold MSS_NUM_GPIO in Hle.
  destruct (for_each _ _ w) as [[] w'] eqn:Hloop. cbn [ret snd].
  assert (Hw' : w' = exec (for_each (map Z.of_nat (seq 0 (Z.to_nat (of_irq_count pdev))))
                             (microsemi_mss_gpio_probe_disable
                                (layout (u16 (of_irq_count pdev))))) w)
    by (unfold exec; now rewrite Hloop).
  assert (Hm : mem w' i = assigned (u32 (mem w i)) MSS_GPIO_X_CFG_EN_INT 0).
  { rewrite Hw', probe_loop_mem by lia.
    destruct (Z.leb_spec (Z.of_nat 0) i);
      destruct (Z.ltb_spec i (Z.of_nat 0 + Z.of_nat (Z.to_nat (of_irq_count pdev))));
      cbn [andb]; try reflexivity; lia. }
  rewrite Hm. split.
  - rewrite assigned_bit by (unfold MSS_GPIO_X_CFG_EN_INT; lia).
    now rewrite Z.eqb_refl.
  - intros k Hk Hne. rewrite assigned_bit by (unfold MSS_GPIO_X_CFG_EN_INT; lia).
    destruct (Z.eqb_spec k MSS_GPIO_X_CFG_EN_INT); [contradiction |].
    apply testbit_u32. lia.
Qed.

Lemma C8_probe_witness :
  let pdev := mkPlatform true None None 0 3 64 0 0 in
  let w := power_on [(0, 255); (1, 8); (2, 7)] in
  eval (microsemi_mss_gpio_probe pdev) w = inr (layout 3) /\
  Z.testbit (mem (exec (microsemi_mss_gpio_probe pdev) w) 0) MSS_GPIO_X_CFG_EN_INT
  = false.
Proof.
  split; [reflexivity |].
  destruct (C8_probe_disables_interrupts (mkPlatform true None None 0 3 64 0 0)
              (power_on [(0, 255); (1, 8); (2, 7)])) as [_ Hok].
  destruct (Hok (layout 3) eq_refl) as [_ Hlines].
  apply (Hlines 0). cbn. lia.
Defined.

(** ** Index validation *)

Lemma to_int_cases (x : Z) : 0 <= x < 2 ^ 32 -> to_int x = x \/ to_int x < 0.
Proof.
  intros Hx. destruct (Z.lt_ge_cases x (2 ^ 31)) as [Hlt | Hge].
  - left. apply to_int_small. lia.
  - right. unfold to_int.
    replace (x + 2 ^ 31) with (x - 2 ^ 31 + 1 * 2 ^ 32) by lia.
    rewrite Z.mod_add by lia. rewrite Z.mod_small by lia. lia.
Qed.

(** C2 fails as stated: on a controller with 8 lines, [irq_enable] and
    [irq_disable] called for index 10 change the config register at word
    10. *)
Lemma C2_counterexample :
  gc_ngpio (layout 8) <= 10 /\
  mem (exec (microsemi_mss_gpio_irq_enable (layout 8) 10) (power_on [])) 10
    <> mem (power_on []) 10 /\
  mem (exec (microsemi_mss_gpio_irq_disable (layout 8) 10) (power_on [(10, 8)])) 10
    <> mem (power_on [(10, 8)]) 10.
Proof.
  split; [cbn; lia |]. split; vm_compute; discriminate.
Qed.

(** C2, amended: for an index at or above the line count,
    [direction_input], [direction_output], [get_direction], [get_value]
    return [-EINVAL] and [set_value] returns, all without any bus access;
    [irq_set_type] does the same for an index that fits 32 bits.
    [irq_enable] and [irq_disable] do not compare the index with the line
    count: they reduce it modulo 32 and set, respectively clear, the
    interrupt-enable bit of that config register. *)
Theorem C2_out_of_range_index (n idx value type : Z) (w : world) :
  n <= idx ->
  microsemi_mss_gpio_direction_input (layout n) idx w = (- EINVAL, w) /\
  microsemi_mss_gpio_direction_output (layout n) idx value w = (- EINVAL, w) /\
  microsemi_mss_gpio_get_direction (layout n) idx w = (- EINVAL, w) /\
  microsemi_mss_gpio_get_value (layout n) idx w = (- EINVAL, w) /\
  microsemi_mss_gpio_set_value (layout n) idx value w = (tt, w) /\
  (0 <= idx < 2 ^ 32 ->
     microsemi_mss_gpio_irq_set_type (layout n) idx type w = (- EINVAL, w)) /\
  (0 <= idx ->
     let line := idx mod MSS_NUM_GPIO in
     Z.testbit (mem (exec (microsemi_mss_gpio_irq_enable (layout n) idx) w) line)
       MSS_GPIO_X_CFG_EN_INT = true /\
     Z.testbit (mem (exec (microsemi_mss_gpio_irq_disable (layout n) idx) w) line)
       MSS_GPIO_X_CFG_EN_INT = false /\
     writes (log (exec (microsemi_mss_gpio_irq_disable (layout n) idx) w))
     = writes (log w) ++
       [IoWrite line (u32 (Z.land (u32 (mem w line))
                             (Z.lnot (BIT MSS_GPIO_X_CFG_EN_INT))))]).
Proof.
  intros Hidx.
  unfold microsemi_mss_gpio_direction_input, microsemi_mss_gpio_direction_output,
    microsemi_mss_gpio_get_direction, microsemi_mss_gpio_get_value,
    microsemi_mss_gpio_set_value.
  cbn [gc_ngpio layout]. rewrite out_of_range_geb by assumption.
  do 5 (split; [reflexivity |]). split.
  - intros Hfit. unfold microsemi_mss_gpio_irq_set_type. cbn [gc_ngpio layout].
    destruct (to_int_cases idx Hfit) as [Heq | Hneg].
    + rewrite Heq, out_of_range_geb by assumption. now rewrite orb_true_r.
    + destruct (Z.ltb_spec (to_int idx) 0); [reflexivity | lia].
  - intros Hpos. set (line := idx mod MSS_NUM_GPIO).
    assert (Hline : 0 <= line < 32)
      by (subst line; unfold MSS_NUM_GPIO; apply Z.mod_pos_bound; lia).
    assert (Hli : line <> IRQ_WORD) by (unfold IRQ_WORD; cbn; lia).
    assert (Hadr : MSS_GPIO_INDEX_TO_CFG (gpio_cfg_base (layout n)) line = line).
    { unfold MSS_GPIO_INDEX_TO_CFG, CFG_WORD. cbn [gpio_cfg_base layout].
      change (0 / 4 + line) with (0 + line). apply Z.add_0_l. }
    split; [| split].
    + unfold exec, microsemi_mss_gpio_irq_enable, bind. fold line.
      destruct (microsemi_mss_gpio_direction_input (layout n) line w) as [r u].
      rewrite !assign_bit_run, Hadr. cbn [snd mem].
      rewrite hw_store_same by assumption.
      rewrite assigned_bit by (unfold MSS_GPIO_X_CFG_EN_INT; lia).
      now rewrite Z.eqb_refl.
    + unfold exec, microsemi_mss_gpio_irq_disable. fold line.
      rewrite assign_bit_run, Hadr. cbn [snd mem].
      rewrite hw_store_same by assumption.
      rewrite assigned_bit by (unfold MSS_GPIO_X_CFG_EN_INT; lia).
      now rewrite Z.eqb_refl.
    + unfold exec, microsemi_mss_gpio_irq_disable. fold line.
      rewrite assign_bit_run, Hadr. cbn [snd log].
      unfold writes. rewrite filter_app. reflexivity.
Qed.

Lemma C2_out_of_range_witness :
  8 <= 10 /\
  microsemi_mss_gpio_get_value (layout 8) 10 (power_on [(IN_WORD, 1024)])
  = (- EINVAL, power_on [(IN_WORD, 1024)]).
Proof.
  split; [lia |].
  assert (Hle : 8 <= 10) by lia.
  destruct (C2_out_of_range_index 8 10 1 IRQ_TYPE_EDGE_BOTH
              (power_on [(IN_WORD, 1024)]) Hle) as (_ & _ & _ & Hget & _).
  exact Hget.
Defined.

(** ** A bring-up scenario *)

(** Eight lines are probed, line 3 is set to edge-rising and enabled, the
    hardware latches line 3 and the handler runs: line 3 is dispatched
    once, its sticky bit is clear again and its interrupt stays enabled. *)
Example scenario_enable_then_interrupt :
  let pdev := mkPlatform true None None 0 8 64 0 0 in
  let c := layout 8 in
  let w1 := exec (microsemi_mss_gpio_probe pdev) (power_on [(3, 13)]) in
  let w2 := exec (microsemi_mss_gpio_irq_set_type c 3 IRQ_TYPE_EDGE_RISING ;;
                  microsemi_mss_gpio_irq_enable c 3) w1 in
  let w3 := exec (microsemi_gpio_irq_handler c) (hw_raise 3 w2) in
  eval (microsemi_mss_gpio_probe pdev) (power_on [(3, 13)]) = inr c /\
  dispatched (log w3) = [3] /\
  Z.testbit (mem w3 IRQ_WORD) 3 = false /\
  Z.testbit (mem w3 3) MSS_GPIO_X_CFG_EN_INT = true /\
  mem w3 3 = Z.lor (BIT MSS_GPIO_X_CFG_BIT_EN_IN)
               (Z.lor (BIT MSS_GPIO_X_CFG_EN_INT) MSS_GPIO_INTR_EDGE_POSITIVE_MASK).
Proof. repeat split. Qed.

(** ** Further properties of the callbacks *)

(** Resolution of the register offsets to numbers, for [lia]. *)
Ltac addr :=
  unfold IRQ_WORD, IN_WORD, OUT_WORD, CFG_WORD in *;
  change (128 / 4) with 32 in *; change (132 / 4) with 33 in *;
  change (136 / 4) with 34 in *; change (0 / 4) with 0 in *;
  lia.

(** Reading a register through a stack of stores. *)
Ltac hw :=
  repeat first
    [ rewrite hw_store_irq
    | rewrite hw_store_same by addr
    | rewrite hw_store_other by addr ].

Lemma exec_bind {A B : Type} (m : M A) (k : A -> M B) (w : world) :
  exec (bind m k) w = exec (k (eval m w)) (exec m w).
Proof. unfold exec, eval, bind. destruct (m w). reflexivity. Qed.

Lemma eval_bind {A B : Type} (m : M A) (k : A -> M B) (w : world) :
  eval (bind m k) w = eval (k (eval m w)) (exec m w).
Proof. unfold exec, eval, bind. destruct (m w). reflexivity. Qed.

Lemma assign_bit_mem (a k v : Z) (w : world) :
  mem (exec (microsemi_mss_gpio_assign_bit a k v) w)
  = hw_store (mem w) a (assigned (u32 (mem w a)) k v).
Proof. unfold exec. now rewrite assign_bit_run. Qed.

Lemma assigned_range (o k v : Z) : 0 <= assigned o k v < 2 ^ 32.
Proof. rewrite <- assigned_u32. apply u32_range. Qed.

Lemma assigned_again (o k v : Z) :
  0 <= k -> assigned (u32 (assigned (u32 o) k v)) k v = assigned (u32 o) k v.
Proof.
  intros Hk. apply bits_split_eq.
  - intros j Hj. repeat first [rewrite assigned_bit by lia | rewrite testbit_u32 by lia].
    destruct (j =? k); reflexivity.
  - intros j Hj. now rewrite !assigned_high.
Qed.

Lemma assigned_swap (o i j v u : Z) :
  0 <= i -> 0 <= j -> i <> j ->
  assigned (u32 (assigned (u32 o) i v)) j u
  = assigned (u32 (assigned (u32 o) j u)) i v.
Proof.
  intros Hi Hj Hne. apply bits_split_eq.
  - intros k Hk. repeat first [rewrite assigned_bit by lia | rewrite testbit_u32 by lia].
    destruct (Z.eqb_spec k j); destruct (Z.eqb_spec k i); try reflexivity; lia.
  - intros k Hk. now rewrite !assigned_high.
Qed.

Lemma assigned_over (o i v u : Z) :
  0 <= i ->
  assigned (u32 (assigned (u32 o) i v)) i u = assigned (u32 o) i u.
Proof.
  intros Hi. apply bits_split_eq.
  - intros k Hk. repeat first [rewrite assigned_bit by lia | rewrite testbit_u32 by lia].
    destruct (k =? i); reflexivity.
  - intros k Hk. now rewrite !assigned_high.
Qed.

(** X1: on any register but the status register, [assign_bit] sets bit
    [k] to the truth value of [value], keeps the other 31 bits and every
    other register, stores a 32-bit value, and a repetition changes
    nothing. *)
Theorem X1_assign_bit_plain_register (a k v : Z) (w : world) :
  a <> IRQ_WORD -> 0 <= k < 32 ->
  let w' := exec (microsemi_mss_gpio_assign_bit a k v) w in
  Z.testbit (mem w' a) k = negb (v =? 0) /\
  (forall j, 0 <= j < 32 -> j <> k -> Z.testbit (mem w' a) j = Z.testbit (mem w a) j) /\
  0 <= mem w' a < 2 ^ 32 /\
  (forall b, b <> a -> mem w' b = mem w b) /\
  (forall b, mem (exec (microsemi_mss_gpio_assign_bit a k v) w') b = mem w' b).
Proof.
  intros Ha Hk w'. subst w'. rewrite !assign_bit_mem.
  rewrite !hw_store_same by assumption.
  split. { rewrite assigned_bit, Z.eqb_refl by lia. reflexivity. }
  split.
  { intros j Hj Hne. rewrite assigned_bit by lia.
    destruct (Z.eqb_spec j k); [contradiction |]. apply testbit_u32. lia. }
  split. { apply assigned_range. }
  split. { intros b Hb. now apply hw_store_other. }
  intros b. destruct (Z.eq_dec b a) as [-> | Hb].
  - rewrite !hw_store_same by assumption. apply assigned_again. lia.
  - rewrite !hw_store_other by assumption. reflexivity.
Qed.

Lemma X1_assign_bit_witness :
  OUT_WORD <> IRQ_WORD /\ 0 <= 4 < 32 /\
  Z.testbit (mem (exec (microsemi_mss_gpio_assign_bit OUT_WORD 4 1)
                    (power_on [(OUT_WORD, 3)])) OUT_WORD) 4 = negb (1 =? 0).
Proof.
  assert (Ha : OUT_WORD <> IRQ_WORD) by (intro H; discriminate H).
  assert (Hk : 0 <= 4 < 32) by lia.
  split; [exact Ha |]. split; [exact Hk |].
  apply (X1_assign_bit_plain_register OUT_WORD 4 1 (power_on [(OUT_WORD, 3)]) Ha Hk).
Defined.

Lemma direction_input_mem (n idx : Z) (w : world) :
  idx < n ->
  mem (exec (microsemi_mss_gpio_direction_input (layout n) idx) w)
  = hw_store (mem w) idx (input_cfg (u32 (mem w idx))).
Proof. intros H. unfold exec. now rewrite direction_input_run. Qed.

Lemma direction_output_mem (n idx v : Z) (w : world) :
  idx < n ->
  mem (exec (microsemi_mss_gpio_direction_output (layout n) idx v) w)
  = hw_store (hw_store (mem w) idx 5) OUT_WORD
      (assigned (u32 (hw_store (mem w) idx 5 OUT_WORD)) idx v).
Proof. intros H. unfold exec. now rewrite direction_output_run. Qed.

Lemma set_value_mem (n idx v : Z) (w : world) :
  idx < n ->
  mem (exec (microsemi_mss_gpio_set_value (layout n) idx v) w)
  = hw_store (mem w) OUT_WORD (assigned (u32 (mem w OUT_WORD)) idx v).
Proof.
  intros H. unfold microsemi_mss_gpio_set_value. cbn [gc_ngpio gpio_out_base layout].
  rewrite in_range_geb by assumption. apply assign_bit_mem.
Qed.

Lemma input_cfg_again (c : Z) : input_cfg (u32 (input_cfg c)) = input_cfg c.
Proof.
  apply bits_split_eq.
  - intros k Hk. rewrite !input_cfg_bit by assumption. rewrite testbit_u32 by lia.
    rewrite input_cfg_bit by assumption.
    destruct (k =? MSS_GPIO_X_CFG_BIT_EN_IN); [reflexivity |].
    destruct ((k =? MSS_GPIO_X_CFG_BIT_EN_OUT) || (k =? MSS_GPIO_X_CFG_BIT_GPIO_OE));
      reflexivity.
  - intros k Hk. unfold input_cfg. now rewrite !testbit_u32_high.
Qed.

(** X2: for an in-range line, [direction_input] returns 0, sets
    enable-input, clears enable-output and output-enable and keeps every
    other bit of the config word, so the interrupt-enable bit and the
    trigger field survive; no other register changes (the output register
    keeps the last driven value); a repetition changes nothing. *)
Theorem X2_direction_input_frame (n idx : Z) (w : world) :
  0 <= idx < n -> n <= MSS_NUM_GPIO ->
  let w' := exec (microsemi_mss_gpio_direction_input (layout n) idx) w in
  eval (microsemi_mss_gpio_direction_input (layout n) idx) w = 0 /\
  Z.testbit (mem w' idx) MSS_GPIO_X_CFG_BIT_EN_IN = true /\
  Z.testbit (mem w' idx) MSS_GPIO_X_CFG_BIT_EN_OUT = false /\
  Z.testbit (mem w' idx) MSS_GPIO_X_CFG_BIT_GPIO_OE = false /\
  (forall k, 3 <= k < 32 -> Z.testbit (mem w' idx) k = Z.testbit (mem w idx) k) /\
  (forall a, a <> idx -> mem w' a = mem w a) /\
  (forall a, mem (exec (microsemi_mss_gpio_direction_input (layout n) idx) w') a
             = mem w' a).
Proof.
  intros Hidx Hn w'. subst w'. unfold MSS_NUM_GPIO in Hn.
  rewrite !direction_input_mem by lia.
  split. { unfold eval. now rewrite direction_input_run by lia. }
  rewrite !hw_store_same by addr.
  split. { now rewrite input_cfg_bit by (cbv; split; congruence). }
  split. { now rewrite input_cfg_bit by (cbv; split; congruence). }
  split. { now rewrite input_cfg_bit by (cbv; split; congruence). }
  split.
  { intros k Hk. rewrite input_cfg_bit by lia.
    unfold MSS_GPIO_X_CFG_BIT_EN_IN, MSS_GPIO_X_CFG_BIT_EN_OUT,
      MSS_GPIO_X_CFG_BIT_GPIO_OE.
    destruct (Z.eqb_spec k 1); [lia |]. destruct (Z.eqb_spec k 0); [lia |].
    destruct (Z.eqb_spec k 2); [lia |]. cbn [orb]. apply testbit_u32. lia. }
  split. { intros a Ha. now apply hw_store_other. }
  intros a. destruct (Z.eq_dec a idx) as [-> | Ha].
  - rewrite !hw_store_same by addr. apply input_cfg_again.
  - rewrite !hw_store_other by assumption. reflexivity.
Qed.

Lemma X2_direction_input_witness :
  0 <= 2 < 4 /\ 4 <= MSS_NUM_GPIO /\
  Z.testbit
    (mem (exec (microsemi_mss_gpio_direction_input (layout 4) 2)
            (power_on [(2, 77)])) 2) MSS_GPIO_X_CFG_BIT_EN_OUT = false.
Proof.
  split; [lia |]. split; [unfold MSS_NUM_GPIO; lia |].
  apply (X2_direction_input_frame 4 2 (power_on [(2, 77)])); unfold MSS_NUM_GPIO; lia.
Defined.

(** X3: for an in-range line, [direction_output] followed by
    [direction_input] leaves the config word with enable-input alone
    (whatever it held before) while the line's bit of the output register
    still holds the driven value and the other output bits are as
    before. *)
Theorem X3_output_then_input (n idx v : Z) (w : world) :
  0 <= idx < n -> n <= MSS_NUM_GPIO ->
  let w' := exec (microsemi_mss_gpio_direction_output (layout n) idx v ;;
                  microsemi_mss_gpio_direction_input (layout n) idx) w in
  mem w' idx = BIT MSS_GPIO_X_CFG_BIT_EN_IN /\
  Z.testbit (mem w' OUT_WORD) idx = negb (v =? 0) /\
  (forall k, 0 <= k < 32 -> k <> idx ->
     Z.testbit (mem w' OUT_WORD) k = Z.testbit (mem w OUT_WORD) k).
Proof.
  intros Hidx Hn w'. subst w'. unfold MSS_NUM_GPIO in Hn.
  rewrite exec_bind, direction_input_mem, direction_output_mem by lia.
  split; [| split].
  - hw. reflexivity.
  - hw. rewrite assigned_bit, Z.eqb_refl by lia. reflexivity.
  - intros k Hk Hne. hw. rewrite assigned_bit by lia.
    destruct (Z.eqb_spec k idx); [contradiction |]. apply testbit_u32. lia.
Qed.

Lemma X3_output_then_input_witness :
  0 <= 0 < 1 /\ 1 <= MSS_NUM_GPIO /\
  mem (exec (microsemi_mss_gpio_direction_output (layout 1) 0 1 ;;
             microsemi_mss_gpio_direction_input (layout 1) 0)
         (power_on [(0, 232)])) 0 = BIT MSS_GPIO_X_CFG_BIT_EN_IN.
Proof.
  split; [lia |]. split; [unfold MSS_NUM_GPIO; lia |].
  apply (X3_output_then_input 1 0 1 (power_on [(0, 232)])); unfold MSS_NUM_GPIO; lia.
Defined.

(** X4: for an in-range line, [set_value] sets the line's bit of the output
    register to the truth value of [value], keeps the other output bits
    and every other register (so no direction changes), and a later
    [set_value] of the same line overrides it completely. *)
Theorem X4_set_value_frame (n idx v u : Z) (w : world) :
  0 <= idx < n -> n <= MSS_NUM_GPIO ->
  let w' := exec (microsemi_mss_gpio_set_value (layout n) idx v) w in
  Z.testbit (mem w' OUT_WORD) idx = negb (v =? 0) /\
  (forall k, 0 <= k < 32 -> k <> idx ->
     Z.testbit (mem w' OUT_WORD) k = Z.testbit (mem w OUT_WORD) k) /\
  (forall a, a <> OUT_WORD -> mem w' a = mem w a) /\
  (forall a, mem (exec (microsemi_mss_gpio_set_value (layout n) idx u) w') a
             = mem (exec (microsemi_mss_gpio_set_value (layout n) idx u) w) a).
Proof.
  intros Hidx Hn w'. subst w'. unfold MSS_NUM_GPIO in Hn.
  rewrite !set_value_mem by lia.
  split. { hw. rewrite assigned_bit, Z.eqb_refl by lia. reflexivity. }
  split.
  { intros k Hk Hne. hw. rewrite assigned_bit by lia.
    destruct (Z.eqb_spec k idx); [contradiction |]. apply testbit_u32. lia. }
  split. { intros a Ha. now apply hw_store_other. }
  intros a. destruct (Z.eq_dec a OUT_WORD) as [-> | Ha].
  - hw. apply assigned_over. lia.
  - rewrite !hw_store_other by assumption. reflexivity.
Qed.

Lemma X4_set_value_witness :
  0 <= 5 < 8 /\ 8 <= MSS_NUM_GPIO /\
  Z.testbit (mem (exec (microsemi_mss_gpio_set_value (layout 8) 5 1)
                    (power_on [(OUT_WORD, 3)])) OUT_WORD) 5 = negb (1 =? 0).
Proof.
  split; [lia |]. split; [unfold MSS_NUM_GPIO; lia |].
  apply (X4_set_value_frame 8 5 1 0 (power_on [(OUT_WORD, 3)])); unfold MSS_NUM_GPIO; lia.
Defined.

(** X5: [set_value] calls on two different in-range lines commute: either
    order leaves the same contents in every register. *)
Theorem X5_set_value_commutes (n i j v u : Z) (w : world) :
  0 <= i < n -> 0 <= j < n -> i <> j ->
  forall a,
    mem (exec (microsemi_mss_gpio_set_value (layout n) i v ;;
               microsemi_mss_gpio_set_value (layout n) j u) w) a
    = mem (exec (microsemi_mss_gpio_set_value (layout n) j u ;;
                 microsemi_mss_gpio_set_value (layout n) i v) w) a.
Proof.
  intros Hi Hj Hne a. rewrite !exec_bind, !set_value_mem by lia.
  destruct (Z.eq_dec a OUT_WORD) as [-> | Ha].
  - hw. apply assigned_swap; lia.
  - rewrite !hw_store_other by assumption. reflexivity.
Qed.

Lemma X5_set_value_commutes_witness :
  0 <= 1 < 4 /\ 0 <= 3 < 4 /\ 1 <> 3 /\
  mem (exec (microsemi_mss_gpio_set_value (layout 4) 1 1 ;;
             microsemi_mss_gpio_set_value (layout 4) 3 0)
         (power_on [(OUT_WORD, 12)])) OUT_WORD
  = mem (exec (microsemi_mss_gpio_set_value (layout 4) 3 0 ;;
               microsemi_mss_gpio_set_value (layout 4) 1 1)
           (power_on [(OUT_WORD, 12)])) OUT_WORD.
Proof.
  split; [lia |]. split; [lia |]. split; [lia |].
  apply (X5_set_value_commutes 4 1 3 1 0 (power_on [(OUT_WORD, 12)])); lia.
Defined.

(** X6: for an in-range line, [direction_output] with one value followed by
    [set_value] with another leaves every register as [direction_output]
    with the second value does: the line stays an output and drives the
    latest value. *)
Theorem X6_output_then_set_value (n idx u v : Z) (w : world) :
  0 <= idx < n -> n <= MSS_NUM_GPIO ->
  forall a,
    mem (exec (microsemi_mss_gpio_direction_output (layout n) idx u ;;
               microsemi_mss_gpio_set_value (layout n) idx v) w) a
    = mem (exec (microsemi_mss_gpio_direction_output (layout n) idx v) w) a.
Proof.
  intros Hidx Hn a. unfold MSS_NUM_GPIO in Hn.
  rewrite exec_bind, set_value_mem, !direction_output_mem by lia.
  destruct (Z.eq_dec a OUT_WORD) as [-> | Ha].
  - hw. apply assigned_over. lia.
  - rewrite (hw_store_other _ OUT_WORD _ a) by assumption.
    rewrite (hw_store_other _ OUT_WORD _ a) by assumption.
    rewrite (hw_store_other _ OUT_WORD _ a) by assumption. reflexivity.
Qed.

Lemma X6_output_then_set_value_witness :
  0 <= 2 < 3 /\ 3 <= MSS_NUM_GPIO /\
  mem (exec (microsemi_mss_gpio_direction_output (layout 3) 2 1 ;;
             microsemi_mss_gpio_set_value (layout 3) 2 0)
         (power_on [(OUT_WORD, 7)])) OUT_WORD
  = mem (exec (microsemi_mss_gpio_direction_output (layout 3) 2 0)
           (power_on [(OUT_WORD, 7)])) OUT_WORD.
Proof.
  split; [lia |]. split; [unfold MSS_NUM_GPIO; lia |].
  apply (X6_output_then_set_value 3 2 1 0 (power_on [(OUT_WORD, 7)]));
    unfold MSS_NUM_GPIO; lia.
Defined.

Lemma writes_app (l1 l2 : list event) : writes (l1 ++ l2) = writes l1 ++ writes l2.
Proof. unfold writes. apply filter_app. Qed.

(** X7: [get_direction] and [get_value] never store and never dispatch,
    whatever the index: they leave every register as it was.  For an index
    below the line count the answer is 0 or 1, so it cannot be taken for
    the error code. *)
Theorem X7_reads_are_pure (n idx : Z) (w : world) :
  let dir := microsemi_mss_gpio_get_direction (layout n) idx in
  let val := microsemi_mss_gpio_get_value (layout n) idx in
  mem (exec dir w) = mem w /\
  writes (log (exec dir w)) = writes (log w) /\
  dispatched (log (exec dir w)) = dispatched (log w) /\
  mem (exec val w) = mem w /\
  writes (log (exec val w)) = writes (log w) /\
  dispatched (log (exec val w)) = dispatched (log w) /\
  (idx < n ->
     (eval dir w = 0 \/ eval dir w = 1) /\ (eval val w = 0 \/ eval val w = 1)).
Proof.
  intros dir val. subst dir val.
  unfold microsemi_mss_gpio_get_direction, microsemi_mss_gpio_get_value.
  cbn [gc_ngpio layout].
  destruct (idx >=? n) eqn:Hge.
  - unfold exec, eval, ret. cbn [fst snd]. do 6 (split; [reflexivity |]).
    intros Hlt. rewrite in_range_geb in Hge by assumption. discriminate.
  - unfold exec, eval, bind, MSS_GPIO_IOREAD, ret. cbn [fst snd mem log].
    rewrite !writes_app, !dispatched_app. cbn. rewrite !app_nil_r.
    do 6 (split; [reflexivity |]). intros _. split.
    + match goal with |- context [if ?b then 1 else _] => destruct b end;
        [right; reflexivity | left].
      match goal with |- context [if ?b then 0 else 0] => destruct b end; reflexivity.
    + match goal with |- context [if ?b then 0 else 1] => destruct b end;
        [left | right]; reflexivity.
Qed.

Lemma irq_set_type_mem (n hwirq type : Z) (w : world) :
  0 <= hwirq < n -> n <= 32 ->
  mem (exec (microsemi_mss_gpio_irq_set_type (layout n) hwirq type) w)
  = hw_store (mem w) hwirq
      (u32 (Z.lor (u32 (mem w hwirq)) (Z.shiftl (spec_trigger_code type) 5))).
Proof. intros H Hn. unfold exec. now rewrite irq_set_type_run. Qed.

Lemma irq_enable_mem (n hwirq : Z) (w : world) :
  0 <= hwirq < n -> n <= 32 ->
  mem (exec (microsemi_mss_gpio_irq_enable (layout n) hwirq) w)
  = hw_store
      (hw_store (hw_store (mem w) hwirq (input_cfg (u32 (mem w hwirq))))
         IRQ_WORD (assigned (u32 (mem w IRQ_WORD)) hwirq 1))
      hwirq (assigned (input_cfg (u32 (mem w hwirq))) MSS_GPIO_X_CFG_EN_INT 1).
Proof. intros H Hn. unfold exec. now rewrite irq_enable_run. Qed.

Lemma irq_disable_mem (n hwirq : Z) (w : world) :
  0 <= hwirq < 32 ->
  mem (exec (microsemi_mss_gpio_irq_disable (layout n) hwirq) w)
  = hw_store (mem w) hwirq (assigned (u32 (mem w hwirq)) MSS_GPIO_X_CFG_EN_INT 0).
Proof. intros H. unfold exec. now rewrite irq_disable_run. Qed.

Lemma trigger_field_outside (type k : Z) :
  ~ 5 <= k <= 7 -> Z.testbit (Z.shiftl (spec_trigger_code type) 5) k = false.
Proof.
  intros Hk. destruct (Z.testbit _ k) eqn:Hb; [| reflexivity].
  apply trigger_field_position in Hb. contradiction.
Qed.

(** X8: for an in-range line, [irq_set_type] changes no bit of the config
    word outside the trigger field (bits 5 to 7), so direction and
    interrupt-enable are kept; the same request twice is the same as once;
    and a request for level-high changes no bit at all, so it cannot undo a
    trigger kind set earlier. *)
Theorem X8_irq_set_type_field (n hwirq type : Z) (w : world) :
  0 <= hwirq < n -> n <= MSS_NUM_GPIO ->
  let set t := microsemi_mss_gpio_irq_set_type (layout n) hwirq t in
  (forall k, 0 <= k < 32 -> ~ 5 <= k <= 7 ->
     Z.testbit (mem (exec (set type) w) hwirq) k = Z.testbit (mem w hwirq) k) /\
  (forall a, mem (exec (set type) (exec (set type) w)) a = mem (exec (set type) w) a) /\
  (forall k, 0 <= k < 32 ->
     Z.testbit (mem (exec (set IRQ_TYPE_LEVEL_HIGH) w) hwirq) k
     = Z.testbit (mem w hwirq) k).
Proof.
  intros Hidx Hn set. subst set. unfold MSS_NUM_GPIO in Hn. cbv beta.
  rewrite !irq_set_type_mem by lia.
  split; [| split].
  - intros k Hk Hout. hw. bits. rewrite trigger_field_outside by assumption.
    apply orb_false_r.
  - intros a. destruct (Z.eq_dec a hwirq) as [-> | Ha].
    + hw. apply u32_ext. intros k Hk. bits.
      destruct (Z.testbit (mem w hwirq) k);
        destruct (Z.testbit (Z.shiftl (spec_trigger_code type) 5) k); reflexivity.
    + rewrite !hw_store_other by assumption. reflexivity.
  - intros k Hk. hw.
    change (Z.shiftl (spec_trigger_code IRQ_TYPE_LEVEL_HIGH) 5) with 0.
    rewrite Z.lor_0_r. bits. reflexivity.
Qed.

Lemma X8_irq_set_type_witness :
  0 <= 3 < 8 /\ 8 <= MSS_NUM_GPIO /\
  Z.testbit
    (mem (exec (microsemi_mss_gpio_irq_set_type (layout 8) 3 IRQ_TYPE_LEVEL_HIGH)
            (power_on [(3, 74)])) 3) 6
  = Z.testbit (mem (power_on [(3, 74)]) 3) 6.
Proof.
  split; [lia |]. split; [unfold MSS_NUM_GPIO; lia |].
  assert (H1 : 0 <= 3 < 8) by lia.
  assert (H2 : 8 <= MSS_NUM_GPIO) by (unfold MSS_NUM_GPIO; lia).
  destruct (X8_irq_set_type_field 8 3 IRQ_TYPE_EDGE_BOTH (power_on [(3, 74)]) H1 H2)
    as (_ & _ & Hhigh).
  apply Hhigh. lia.
Defined.

(** X9: for an in-range line, [irq_enable] leaves no line pending: its
    store to the status register asserts every bit it has just read, so
    the sticky bits of all 32 lines are cleared, not only the one of the
    enabled line.  Bits 4 to 31 of the line's config word (the trigger
    field among them) are kept, and no register other than that config
    word and the status register changes. *)
Theorem X9_irq_enable_clears_all_pending (n hwirq : Z) (w : world) :
  0 <= hwirq < n -> n <= MSS_NUM_GPIO ->
  let w' := exec (microsemi_mss_gpio_irq_enable (layout n) hwirq) w in
  (forall j, 0 <= j < 32 -> Z.testbit (mem w' IRQ_WORD) j = false) /\
  (forall k, 4 <= k < 32 -> Z.testbit (mem w' hwirq) k = Z.testbit (mem w hwirq) k) /\
  (forall a, a <> hwirq -> a <> IRQ_WORD -> mem w' a = mem w a).
Proof.
  intros Hidx Hn w'. subst w'. unfold MSS_NUM_GPIO in Hn.
  rewrite irq_enable_mem by lia.
  split; [| split].
  - intros j Hj. hw. apply cleared_status_bit; lia.
  - intros k Hk. hw. rewrite enabled_cfg_bit by lia.
    unfold MSS_GPIO_X_CFG_EN_INT, MSS_GPIO_X_CFG_BIT_EN_IN, MSS_GPIO_X_CFG_BIT_EN_OUT,
      MSS_GPIO_X_CFG_BIT_GPIO_OE.
    destruct (Z.eqb_spec k 3); [lia |]. destruct (Z.eqb_spec k 1); [lia |].
    destruct (Z.eqb_spec k 0); [lia |]. destruct (Z.eqb_spec k 2); [lia |].
    cbn [orb]. apply testbit_u32. lia.
  - intros a Ha1 Ha2. rewrite !hw_store_other by assumption. reflexivity.
Qed.

Lemma X9_irq_enable_witness :
  0 <= 1 < 8 /\ 8 <= MSS_NUM_GPIO /\
  Z.testbit
    (mem (exec (microsemi_mss_gpio_irq_enable (layout 8) 1)
            (power_on [(IRQ_WORD, 96)])) IRQ_WORD) 6 = false.
Proof.
  split; [lia |]. split; [unfold MSS_NUM_GPIO; lia |].
  assert (H1 : 0 <= 1 < 8) by lia.
  assert (H2 : 8 <= MSS_NUM_GPIO) by (unfold MSS_NUM_GPIO; lia).
  destruct (X9_irq_enable_clears_all_pending 8 1 (power_on [(IRQ_WORD, 96)]) H1 H2)
    as (Hclr & _).
  apply Hclr. lia.
Defined.

(** X10: for an in-range line, [irq_disable] after [irq_enable] clears
    interrupt-enable again but does not restore the direction: the line
    stays an input with its sticky bit clear.  In the other order the
    disable is of no consequence: [irq_disable] followed by [irq_enable]
    leaves every register as [irq_enable] alone does. *)
Theorem X10_enable_disable_compose (n hwirq : Z) (w : world) :
  0 <= hwirq < n -> n <= MSS_NUM_GPIO ->
  let enable := microsemi_mss_gpio_irq_enable (layout n) hwirq in
  let disable := microsemi_mss_gpio_irq_disable (layout n) hwirq in
  let w' := exec (enable ;; disable) w in
  Z.testbit (mem w' hwirq) MSS_GPIO_X_CFG_EN_INT = false /\
  Z.testbit (mem w' hwirq) MSS_GPIO_X_CFG_BIT_EN_IN = true /\
  Z.testbit (mem w' hwirq) MSS_GPIO_X_CFG_BIT_EN_OUT = false /\
  Z.testbit (mem w' hwirq) MSS_GPIO_X_CFG_BIT_GPIO_OE = false /\
  Z.testbit (mem w' IRQ_WORD) hwirq = false /\
  (forall a, mem (exec (disable ;; enable) w) a = mem (exec enable w) a).
Proof.
  intros Hidx Hn enable disable w'. subst w' enable disable.
  unfold MSS_NUM_GPIO in Hn.
  rewrite !exec_bind.
  rewrite irq_disable_mem by lia. rewrite !irq_enable_mem by lia.
  rewrite irq_disable_mem by lia.
  assert (Hbit : forall c k, 0 <= k < 32 ->
            Z.testbit (assigned (u32 (assigned (input_cfg c) MSS_GPIO_X_CFG_EN_INT 1))
                         MSS_GPIO_X_CFG_EN_INT 0) k
            = if k =? MSS_GPIO_X_CFG_EN_INT then false
              else Z.testbit (input_cfg c) k).
  { intros c k Hk. rewrite assigned_bit by (unfold MSS_GPIO_X_CFG_EN_INT; lia).
    rewrite testbit_u32 by lia.
    rewrite assigned_bit by (unfold MSS_GPIO_X_CFG_EN_INT; lia).
    destruct (k =? MSS_GPIO_X_CFG_EN_INT); reflexivity. }
  split. { hw. now rewrite Hbit by (cbv; split; congruence). }
  split.
  { hw. rewrite Hbit by (cbv; split; congruence).
    now rewrite input_cfg_bit by (cbv; split; congruence). }
  split.
  { hw. rewrite Hbit by (cbv; split; congruence).
    now rewrite input_cfg_bit by (cbv; split; congruence). }
  split.
  { hw. rewrite Hbit by (cbv; split; congruence).
    now rewrite input_cfg_bit by (cbv; split; congruence). }
  split. { hw. apply cleared_status_bit; lia. }
  intros a. destruct (Z.eq_dec a hwirq) as [-> | Ha1].
  - hw. apply bits_split_eq.
    + intros k Hk. rewrite !enabled_cfg_bit by assumption.
      rewrite !testbit_u32 by lia.
      rewrite assigned_bit by (unfold MSS_GPIO_X_CFG_EN_INT; lia).
      rewrite testbit_u32 by lia.
      destruct (k =? MSS_GPIO_X_CFG_EN_INT); reflexivity.
    + intros k Hk. now rewrite !assigned_high.
  - destruct (Z.eq_dec a IRQ_WORD) as [-> | Ha2].
    + hw. reflexivity.
    + rewrite !hw_store_other by assumption. reflexivity.
Qed.

Lemma X10_enable_disable_witness :
  0 <= 2 < 4 /\ 4 <= MSS_NUM_GPIO /\
  Z.testbit
    (mem (exec (microsemi_mss_gpio_irq_enable (layout 4) 2 ;;
                microsemi_mss_gpio_irq_disable (layout 4) 2)
            (power_on [(2, 5)])) 2) MSS_GPIO_X_CFG_BIT_EN_IN = true.
Proof.
  split; [lia |]. split; [unfold MSS_NUM_GPIO; lia |].
  apply (X10_enable_disable_compose 4 2 (power_on [(2, 5)])); unfold MSS_NUM_GPIO; lia.
Defined.

Lemma get_direction_eval (n idx : Z) (w : world) :
  idx < n ->
  eval (microsemi_mss_gpio_get_direction (layout n) idx) w
  = if Z.testbit (mem w idx) MSS_GPIO_X_CFG_BIT_EN_IN then 1 else 0.
Proof. intros H. unfold eval. now rewrite get_direction_run. Qed.

(** X11: enabling the interrupt of a line that was just made an output
    turns it into an input: [get_direction] answers input, the
    interrupt-enable bit is set, and the output register still holds the
    driven value. *)
Theorem X11_enable_overrides_output (n idx v : Z) (w : world) :
  0 <= idx < n -> n <= MSS_NUM_GPIO ->
  let m := microsemi_mss_gpio_direction_output (layout n) idx v ;;
           microsemi_mss_gpio_irq_enable (layout n) idx in
  eval (m ;; microsemi_mss_gpio_get_direction (layout n) idx) w
    = GPIO_LINE_DIRECTION_IN /\
  Z.testbit (mem (exec m w) idx) MSS_GPIO_X_CFG_EN_INT = true /\
  Z.testbit (mem (exec m w) OUT_WORD) idx = negb (v =? 0).
Proof.
  intros Hidx Hn m. subst m. unfold MSS_NUM_GPIO in Hn.
  rewrite eval_bind, get_direction_eval by lia.
  rewrite !exec_bind, !irq_enable_mem, !direction_output_mem by lia.
  split; [| split].
  - hw. now rewrite enabled_cfg_bit by (cbv; split; congruence).
  - hw. now rewrite enabled_cfg_bit by (cbv; split; congruence).
  - hw. rewrite assigned_bit, Z.eqb_refl by lia. reflexivity.
Qed.

Lemma X11_enable_overrides_output_witness :
  0 <= 0 < 2 /\ 2 <= MSS_NUM_GPIO /\
  eval (microsemi_mss_gpio_direction_output (layout 2) 0 1 ;;
        microsemi_mss_gpio_irq_enable (layout 2) 0 ;;
        microsemi_mss_gpio_get_direction (layout 2) 0) (power_on [])
  = GPIO_LINE_DIRECTION_IN.
Proof.
  split; [lia |]. split; [unfold MSS_NUM_GPIO; lia |].
  apply (X11_enable_overrides_output 2 0 1 (power_on [])); unfold MSS_NUM_GPIO; lia.
Defined.

(** ** Further properties of the handlers *)

Lemma set_bits_In (s n k : Z) :
  In k (set_bits s n) <-> 0 <= k < n /\ Z.testbit s k = true.
Proof.
  unfold set_bits. rewrite filter_In, in_map_iff. split.
  - intros [[i [<- Hi]] Hb]. apply in_seq in Hi. split; [lia | assumption].
  - intros [Hk Hb]. split; [| assumption].
    exists (Z.to_nat k). split; [lia |]. apply in_seq. lia.
Qed.

Lemma sorted_indices (a m : nat) : StronglySorted Z.lt (map Z.of_nat (seq a m)).
Proof.
  revert a. induction m as [| m IH]; intros a; cbn [seq map]; constructor.
  - apply IH.
  - apply Forall_forall. intros x Hx. apply in_map_iff in Hx.
    destruct Hx as [i [<- Hi]]. apply in_seq in Hi. lia.
Qed.

Lemma sorted_filter (f : Z -> bool) (l : list Z) :
  StronglySorted Z.lt l -> StronglySorted Z.lt (filter f l).
Proof.
  induction 1 as [| a l Hs IH Hall]; cbn [filter]; [constructor |].
  destruct (f a); [| assumption]. constructor; [assumption |].
  apply Forall_forall. intros x Hx. apply filter_In in Hx.
  rewrite Forall_forall in Hall. apply Hall. tauto.
Qed.

Lemma set_bits_sorted (s n : Z) : StronglySorted Z.lt (set_bits s n).
Proof. unfold set_bits. apply sorted_filter, sorted_indices. Qed.

(** X12: with at most 32 lines, one run of the registered handler
    dispatches exactly the lines below the line count whose sticky bit was
    set when the handler read the status register, each of them once and
    in strictly increasing order. *)
Theorem X12_irq_handler_dispatches_pending (n : Z) (w : world) :
  n <= MSS_NUM_GPIO ->
  exists l,
    dispatched (log (exec (microsemi_gpio_irq_handler (layout n)) w))
    = dispatched (log w) ++ l /\
    (forall k, In k l <-> 0 <= k < n /\ Z.testbit (mem w IRQ_WORD) k = true) /\
    StronglySorted Z.lt l.
Proof.
  intros Hn. unfold MSS_NUM_GPIO in Hn.
  exists (set_bits (u32 (mem w IRQ_WORD)) n). split; [| split].
  - apply irq_handler_dispatched.
  - intros k. rewrite set_bits_In. split; intros [Hk Hb]; (split; [assumption |]).
    + rewrite testbit_u32 in Hb by lia. assumption.
    + rewrite testbit_u32 by lia. assumption.
  - apply set_bits_sorted.
Qed.

Lemma X12_irq_handler_witness :
  8 <= MSS_NUM_GPIO /\
  exists l,
    dispatched (log (exec (microsemi_gpio_irq_handler (layout 8))
                       (power_on [(IRQ_WORD, 6)])))
    = dispatched (log (power_on [(IRQ_WORD, 6)])) ++ l /\
    (forall k, In k l <->
       0 <= k < 8 /\ Z.testbit (mem (power_on [(IRQ_WORD, 6)]) IRQ_WORD) k = true) /\
    StronglySorted Z.lt l.
Proof.
  assert (H : 8 <= MSS_NUM_GPIO) by (unfold MSS_NUM_GPIO; lia).
  split; [exact H |].
  exact (X12_irq_handler_dispatches_pending 8 (power_on [(IRQ_WORD, 6)]) H).
Defined.

Lemma service_loop_writes (n : Z) (l : list Z) (w : world) :
  length (writes (log (exec (for_each l (microsemi_gpio_irq_service (layout n))) w)))
  = (length (writes (log w)) + length l)%nat.
Proof.
  revert w. induction l as [| o l IH]; intros w.
  - cbn. lia.
  - rewrite exec_for_each_cons, IH, irq_service_writes, length_app. cbn. lia.
Qed.

Lemma irq_handler_exec (n : Z) (w : world) :
  exec (microsemi_gpio_irq_handler (layout n)) w
  = exec (for_each (set_bits (u32 (mem w IRQ_WORD)) n)
            (microsemi_gpio_irq_service (layout n)))
      (mkWorld (mem w) (log w ++ [IoRead IRQ_WORD (u32 (mem w IRQ_WORD))])).
Proof. unfold exec at 1. now rewrite irq_handler_run. Qed.

(** X13: with at most 32 lines, the registered handler always answers
    [IRQ_HANDLED] and changes no register but the status register, with one
    store per dispatched line.  When a line below the line count is
    pending, the run leaves all 32 sticky bits clear, those of lines at or
    above the line count included, which are never dispatched; when none is
    pending it stores nothing, so such bits stay set. *)
Theorem X13_irq_handler_status (n : Z) (w : world) :
  n <= MSS_NUM_GPIO ->
  let w' := exec (microsemi_gpio_irq_handler (layout n)) w in
  eval (microsemi_gpio_irq_handler (layout n)) w = IRQ_HANDLED /\
  (forall a, a <> IRQ_WORD -> mem w' a = mem w a) /\
  (length (writes (log w')) + length (dispatched (log w))
   = length (writes (log w)) + length (dispatched (log w')))%nat /\
  ((exists k, 0 <= k < n /\ Z.testbit (mem w IRQ_WORD) k = true) ->
     forall j, 0 <= j < 32 -> Z.testbit (mem w' IRQ_WORD) j = false) /\
  ((forall k, 0 <= k < n -> Z.testbit (mem w IRQ_WORD) k = false) ->
     mem w' = mem w /\ writes (log w') = writes (log w)).
Proof.
  intros Hn w'. unfold MSS_NUM_GPIO in Hn.
  split. { unfold eval. now rewrite irq_handler_run. }
  split. { intros a Ha. subst w'. rewrite irq_handler_exec. now rewrite service_loop_frame. }
  split.
  { subst w'. rewrite irq_handler_dispatched, length_app.
    rewrite irq_handler_exec, service_loop_writes. cbn [log].
    rewrite writes_app. cbn. rewrite app_nil_r. lia. }
  split.
  - intros [k [Hk Hb]] j Hj. subst w'. rewrite irq_handler_exec.
    rewrite <- testbit_u32 by lia. rewrite service_loop_status.
    + apply Z.bits_0.
    + intros He.
      assert (Hin : In k (set_bits (u32 (mem w IRQ_WORD)) n)).
      { apply set_bits_In. split; [assumption |]. rewrite testbit_u32 by lia. assumption. }
      rewrite He in Hin. contradiction.
    + apply set_bits_nonneg.
  - intros Hnone. subst w'. rewrite irq_handler_exec.
    assert (He : set_bits (u32 (mem w IRQ_WORD)) n = []).
    { unfold set_bits. apply filter_none. intros x Hx. apply in_map_iff in Hx.
      destruct Hx as [i [<- Hi]]. apply in_seq in Hi.
      rewrite testbit_u32 by lia. apply Hnone. lia. }
    rewrite He. cbn [for_each]. unfold exec, ret. cbn [snd mem log].
    split; [reflexivity |]. rewrite writes_app. cbn. apply app_nil_r.
Qed.

Lemma X13_irq_handler_status_witness :
  4 <= MSS_NUM_GPIO /\
  Z.testbit (mem (exec (microsemi_gpio_irq_handler (layout 4))
                    (power_on [(IRQ_WORD, 66)])) IRQ_WORD) 6 = false.
Proof.
  assert (H : 4 <= MSS_NUM_GPIO) by (unfold MSS_NUM_GPIO; lia).
  split; [exact H |].
  destruct (X13_irq_handler_status 4 (power_on [(IRQ_WORD, 66)]) H)
    as (_ & _ & _ & Hclr & _).
  apply Hclr; [| lia]. exists 1. split; [lia | reflexivity].
Defined.

Lemma dispatch_loop_run (l : list Z) (w : world) :
  exec (for_each l generic_handle_irq) w
  = mkWorld (mem w) (log w ++ map HandleIrq l).
Proof.
  revert w. induction l as [| o l IH]; intros w.
  - unfold exec. cbn. rewrite app_nil_r. now destruct w.
  - rewrite exec_for_each_cons, IH. unfold exec, generic_handle_irq, emit.
    cbn [snd mem log map]. rewrite <- app_assoc. reflexivity.
Qed.

Lemma dispatched_handle (l : list Z) : dispatched (map HandleIrq l) = l.
Proof. induction l as [| o l IH]; [reflexivity |]. cbn. f_equal. exact IH. Qed.

Lemma writes_handle (l : list Z) : writes (map HandleIrq l) = [].
Proof. induction l as [| o l IH]; [reflexivity |]. cbn. exact IH. Qed.

(** X14: the chained variant of the handler dispatches the same lines in
    the same order as the registered handler, but it never stores: every
    register, the status register included, is left as it was, so the
    sticky bits it has served stay set. *)
Theorem X14_chained_handler_never_clears (n : Z) (w : world) :
  let w' := exec (microsemi_mss_gpio_irq_handler (layout n)) w in
  dispatched (log w')
  = dispatched (log (exec (microsemi_gpio_irq_handler (layout n)) w)) /\
  mem w' = mem w /\
  writes (log w') = writes (log w).
Proof.
  intros w'.
  assert (Hw' : w' = mkWorld (mem w)
                       ((log w ++ [IoRead IRQ_WORD (u32 (mem w IRQ_WORD))])
                        ++ map HandleIrq (set_bits (u32 (mem w IRQ_WORD)) n))).
  { subst w'. unfold microsemi_mss_gpio_irq_handler, chained_irq_enter,
      chained_irq_exit.
    rewrite exec_bind. unfold exec at 2. unfold ret at 2. cbn [snd].
    rewrite exec_bind. unfold eval, exec at 2, MSS_GPIO_IOREAD. cbn [fst snd].
    cbn [gpio_irq_base gc_ngpio layout]. rewrite irq_mask_u32.
    rewrite exec_bind. unfold exec at 1, ret. cbn [snd].
    unfold for_each_set_bit. apply dispatch_loop_run. }
  rewrite Hw'. cbn [mem log]. split; [| split].
  - rewrite irq_handler_dispatched, !dispatched_app, dispatched_handle. cbn.
    now rewrite app_nil_r.
  - reflexivity.
  - rewrite !writes_app, writes_handle. cbn. now rewrite !app_nil_r.
Qed.

(** ** Further properties of the bring-up *)

Lemma eval_then_ret {A : Type} (m : M unit) (a : A) (w : world) :
  eval (m ;; ret a) w = a.
Proof. unfold eval, bind, ret. destruct (m w). reflexivity. Qed.

Lemma exec_then_ret {A : Type} (m : M unit) (a : A) (w : world) :
  exec (m ;; ret a) w = exec m w.
Proof. unfold exec, bind, ret. destruct (m w). reflexivity. Qed.

(** X15: before each of its error returns the probe function itself has
    issued no register access: the registers and the bus log are as before
    the call.  The calls into the platform are taken by their outcome, so
    accesses that gpiolib may make through the callbacks while
    [gpiochip_add_data] runs are outside this statement. *)
Theorem X15_probe_failure_leaves_device (pdev : platform) (w : world) (err : Z) :
  eval (microsemi_mss_gpio_probe pdev) w = inl err ->
  exec (microsemi_mss_gpio_probe pdev) w = w.
Proof.
  unfold microsemi_mss_gpio_probe.
  destruct (negb (devm_kzalloc_ok pdev)); [reflexivity |].
  destruct (devm_ioremap_resource_err pdev); [reflexivity |].
  destruct (devm_clk_get_err pdev); [reflexivity |].
  destruct (negb (clk_prepare_enable_ret pdev =? 0)); [reflexivity |].
  destruct (of_irq_count pdev >? MSS_NUM_GPIO); [reflexivity |].
  destruct (devm_irq_alloc_descs_ret pdev <? 0); [reflexivity |].
  destruct (negb (gpiochip_add_data_ret pdev =? 0)); [reflexivity |].
  rewrite eval_then_ret. discriminate.
Qed.

Lemma X15_probe_failure_witness :
  let pdev := mkPlatform true None None 0 33 64 0 0 in
  let w := power_on [(0, 8)] in
  eval (microsemi_mss_gpio_probe pdev) w = inl (- EINVAL) /\
  exec (microsemi_mss_gpio_probe pdev) w = w.
Proof.
  split; [reflexivity |].
  apply (X15_probe_failure_leaves_device (mkPlatform true None None 0 33 64 0 0)
           (power_on [(0, 8)]) (- EINVAL)).
  reflexivity.
Defined.

(** X16: the probe succeeds exactly when the allocation, the mapping and
    the clock lookup succeed, [clk_prepare_enable] returns 0, there are at
    most 32 interrupt lines, the descriptor allocation is not negative and
    [gpiochip_add_data] returns 0.  Neither the state of the device nor the
    outcome of [devm_request_irq] matters: a handler that could not be
    registered does not fail the probe.  The chip it stores has the fixed
    register layout and the counted number of lines. *)
Theorem X16_probe_success_condition (pdev : platform) (w : world) :
  ((exists mss_gpio, eval (microsemi_mss_gpio_probe pdev) w = inr mss_gpio) <->
   devm_kzalloc_ok pdev = true /\
   devm_ioremap_resource_err pdev = None /\
   devm_clk_get_err pdev = None /\
   clk_prepare_enable_ret pdev = 0 /\
   of_irq_count pdev <= MSS_NUM_GPIO /\
   0 <= devm_irq_alloc_descs_ret pdev /\
   gpiochip_add_data_ret pdev = 0) /\
  (forall mss_gpio,
     eval (microsemi_mss_gpio_probe pdev) w = inr mss_gpio ->
     mss_gpio = layout (u16 (of_irq_count pdev)) /\
     (0 <= of_irq_count pdev -> gc_ngpio mss_gpio = of_irq_count pdev)).
Proof.
  unfold microsemi_mss_gpio_probe.
  destruct (devm_kzalloc_ok pdev); cbn [negb].
  2:{ split; [split |]; [intros [c Hc]; discriminate
                        | intros (H & _); discriminate
                        | intros c Hc; discriminate]. }
  destruct (devm_ioremap_resource_err pdev) as [e1 |].
  { split; [split |]; [intros [c Hc]; discriminate
                      | intros (_ & H & _); discriminate
                      | intros c Hc; discriminate]. }
  destruct (devm_clk_get_err pdev) as [e2 |].
  { split; [split |]; [intros [c Hc]; discriminate
                      | intros (_ & _ & H & _); discriminate
                      | intros c Hc; discriminate]. }
  destruct (Z.eqb_spec (clk_prepare_enable_ret pdev) 0) as [Hclk | Hclk]; cbn [negb].
  2:{ split; [split |]; [intros [c Hc]; discriminate
                        | intros (_ & _ & _ & H & _); contradiction
                        | intros c Hc; discriminate]. }
  destruct (Z.gtb_spec (of_irq_count pdev) MSS_NUM_GPIO) as [Hgt | Hle].
  { split; [split |]; [intros [c Hc]; discriminate
                      | intros (_ & _ & _ & _ & H & _); lia
                      | intros c Hc; discriminate]. }
  destruct (Z.ltb_spec (devm_irq_alloc_descs_ret pdev) 0) as [Hneg | Hpos].
  { split; [split |]; [intros [c Hc]; discriminate
                      | intros (_ & _ & _ & _ & _ & H & _); lia
                      | intros c Hc; discriminate]. }
  destruct (Z.eqb_spec (gpiochip_add_data_ret pdev) 0) as [Hadd | Hadd]; cbn [negb].
  2:{ split; [split |]; [intros [c Hc]; discriminate
                        | intros (_ & _ & _ & _ & _ & _ & H); contradiction
                        | intros c Hc; discriminate]. }
  rewrite eval_then_ret. split; [split |].
  - intros _. repeat split; assumption.
  - intros _. eexists. reflexivity.
  - intros c Hc. injection Hc as <-. split; [reflexivity |].
    intros H0. cbn [gc_ngpio layout]. unfold u16. apply Z.mod_small.
    unfold MSS_NUM_GPIO in Hle. lia.
Qed.

Lemma probe_loop_writes (n : Z) (len a : nat) (w : world) :
  Z.of_nat a + Z.of_nat len <= 32 ->
  writes (log (exec (for_each (map Z.of_nat (seq a len))
                       (microsemi_mss_gpio_probe_disable (layout n))) w))
  = writes (log w) ++
    map (fun i => IoWrite i (assigned (u32 (mem w i)) MSS_GPIO_X_CFG_EN_INT 0))
        (map Z.of_nat (seq a len)).
Proof.
  revert a w. induction len as [| len IH]; intros a w Hle.
  - cbn. now rewrite app_nil_r.
  - cbn [seq map]. rewrite exec_for_each_cons. rewrite IH by lia.
    unfold exec at 1 2. rewrite probe_disable_run. cbn [snd mem log].
    rewrite writes_app. cbn [writes filter is_write app]. rewrite <- app_assoc.
    cbn [app]. do 2 f_equal. apply map_ext_in. intros i Hi.
    apply in_map_iff in Hi. destruct Hi as [j [<- Hj]]. apply in_seq in Hj.
    rewrite hw_store_other by lia. reflexivity.
Qed.

(** X17: a successful probe stores once to the config register of each
    line, in increasing line order, the word it read with the
    interrupt-enable bit cleared, and stores to nothing else: every
    register outside the config registers of the counted lines (the
    status, input and output registers among them) is as before. *)
Theorem X17_probe_stores (pdev : platform) (w : world) (mss_gpio : microsemi_mss_gpio_chip) :
  eval (microsemi_mss_gpio_probe pdev) w = inr mss_gpio ->
  let w' := exec (microsemi_mss_gpio_probe pdev) w in
  writes (log w')
  = writes (log w) ++
    map (fun i => IoWrite i (u32 (Z.land (u32 (mem w i))
                                    (Z.lnot (BIT MSS_GPIO_X_CFG_EN_INT)))))
        (map Z.of_nat (seq 0 (Z.to_nat (of_irq_count pdev)))) /\
  (forall a, ~ 0 <= a < of_irq_count pdev -> mem w' a = mem w a).
Proof.
  unfold microsemi_mss_gpio_probe.
  destruct (negb (devm_kzalloc_ok pdev)); [discriminate |].
  destruct (devm_ioremap_resource_err pdev); [discriminate |].
  destruct (devm_clk_get_err pdev); [discriminate |].
  destruct (negb (clk_prepare_enable_ret pdev =? 0)); [discriminate |].
  destruct (Z.gtb_spec (of_irq_count pdev) MSS_NUM_GPIO) as [Hgt | Hle];
    [discriminate |].
  destruct (devm_irq_alloc_descs_ret pdev <? 0); [discriminate |].
  destruct (negb (gpiochip_add_data_ret pdev =? 0)); [discriminate |].
  intros _. cbv zeta. rewrite exec_then_ret. unfold MSS_NUM_GPIO in Hle. split.
  - rewrite probe_loop_writes by lia. reflexivity.
  - intros a Ha. rewrite probe_loop_mem by lia.
    destruct (Z.leb_spec (Z.of_nat 0) a);
      destruct (Z.ltb_spec a (Z.of_nat 0 + Z.of_nat (Z.to_nat (of_irq_count pdev))));
      cbn [andb]; try reflexivity; lia.
Qed.

Lemma X17_probe_stores_witness :
  let pdev := mkPlatform true None None 0 2 64 0 (- 16) in
  let w := power_on [(0, 9); (1, 3); (2, 8)] in
  eval (microsemi_mss_gpio_probe pdev) w = inr (layout 2) /\
  mem (exec (microsemi_mss_gpio_probe pdev) w) 2 = mem w 2.
Proof.
  split; [reflexivity |].
  assert (H : eval (microsemi_mss_gpio_probe (mkPlatform true None None 0 2 64 0 (- 16)))
                (power_on [(0, 9); (1, 3); (2, 8)]) = inr (layout 2)) by reflexivity.
  destruct (X17_probe_stores _ _ _ H) as [_ Hframe].
  apply Hframe. cbn. lia.
Defined.

(** ** The direction invariant *)

Lemma direction_consistent_ext (x y : Z) :
  (forall k, 0 <= k < 3 -> Z.testbit x k = Z.testbit y k) ->
  direction_consistent x = direction_consistent y.
Proof.
  intros H. unfold direction_consistent, MSS_GPIO_X_CFG_BIT_EN_IN,
    MSS_GPIO_X_CFG_BIT_EN_OUT, MSS_GPIO_X_CFG_BIT_GPIO_OE.
  cbv zeta. rewrite (H 0), (H 1), (H 2) by lia. reflexivity.
Qed.

Lemma direction_consistent_input (c : Z) : direction_consistent (input_cfg c) = true.
Proof.
  unfold direction_consistent. cbv zeta.
  rewrite !input_cfg_bit by (cbv; split; congruence). reflexivity.
Qed.

Lemma direction_consistent_enabled (c : Z) :
  direction_consistent (assigned (input_cfg c) MSS_GPIO_X_CFG_EN_INT 1) = true.
Proof.
  unfold direction_consistent. cbv zeta.
  rewrite !enabled_cfg_bit by (cbv; split; congruence). reflexivity.
Qed.

Lemma get_direction_OUT_iff (n idx : Z) (w : world) :
  idx < n -> direction_consistent (mem w idx) = true ->
  (eval (microsemi_mss_gpio_get_direction (layout n) idx) w = GPIO_LINE_DIRECTION_OUT
   <-> Z.testbit (mem w idx) MSS_GPIO_X_CFG_BIT_EN_OUT = true /\
       Z.testbit (mem w idx) MSS_GPIO_X_CFG_BIT_GPIO_OE = true).
Proof.
  intros Hidx Hok. rewrite get_direction_eval by assumption.
  unfold direction_consistent in Hok. cbv zeta in Hok.
  unfold GPIO_LINE_DIRECTION_OUT.
  destruct (Z.testbit (mem w idx) MSS_GPIO_X_CFG_BIT_EN_IN);
    destruct (Z.testbit (mem w idx) MSS_GPIO_X_CFG_BIT_EN_OUT);
    destruct (Z.testbit (mem w idx) MSS_GPIO_X_CFG_BIT_GPIO_OE);
    cbn in Hok; try discriminate Hok; split;
    try (intros H; discriminate H); try (intros [H1 H2]; discriminate);
    try (intros _; split; reflexivity); try reflexivity.
Qed.

(** X18: for an in-range line, each of [direction_input],
    [direction_output] and [irq_enable] leaves the line's config word with
    one direction selected: enable-input alone, or enable-output together
    with output-enable, whatever the word held before. *)
Theorem X18_direction_established (n idx v : Z) (w : world) :
  0 <= idx < n -> n <= MSS_NUM_GPIO ->
  direction_consistent
    (mem (exec (microsemi_mss_gpio_direction_input (layout n) idx) w) idx) = true /\
  direction_consistent
    (mem (exec (microsemi_mss_gpio_direction_output (layout n) idx v) w) idx) = true /\
  direction_consistent
    (mem (exec (microsemi_mss_gpio_irq_enable (layout n) idx) w) idx) = true.
Proof.
  intros Hidx Hn. unfold MSS_NUM_GPIO in Hn.
  rewrite direction_input_mem, direction_output_mem, irq_enable_mem by lia.
  split; [| split]; hw.
  - apply direction_consistent_input.
  - reflexivity.
  - apply direction_consistent_enabled.
Qed.

Lemma X18_direction_established_witness :
  0 <= 1 < 2 /\ 2 <= MSS_NUM_GPIO /\
  direction_consistent
    (mem (exec (microsemi_mss_gpio_direction_input (layout 2) 1)
            (power_on [(1, 7)])) 1) = true.
Proof.
  split; [lia |]. split; [unfold MSS_NUM_GPIO; lia |].
  apply (X18_direction_established 2 1 0 (power_on [(1, 7)])); unfold MSS_NUM_GPIO; lia.
Defined.

(** X19: once the config word of an in-range line selects one direction,
    it keeps doing so under every callback applied to any in-range line
    (the same one or another): [set_value], [irq_set_type],
    [irq_disable], [direction_input], [direction_output], [irq_enable]
    and the interrupt handler.  On such a line [get_direction] answers
    output exactly when enable-output and output-enable are both set, so
    its fallback branch is not taken. *)
Theorem X19_direction_preserved (n idx j v type : Z) (w : world) :
  0 <= idx < n -> 0 <= j < n -> n <= MSS_NUM_GPIO ->
  direction_consistent (mem w idx) = true ->
  let ok (A : Type) (m : M A) := direction_consistent (mem (exec m w) idx) = true in
  ok unit (microsemi_mss_gpio_set_value (layout n) j v) /\
  ok Z (microsemi_mss_gpio_irq_set_type (layout n) j type) /\
  ok unit (microsemi_mss_gpio_irq_disable (layout n) j) /\
  ok Z (microsemi_mss_gpio_direction_input (layout n) j) /\
  ok Z (microsemi_mss_gpio_direction_output (layout n) j v) /\
  ok unit (microsemi_mss_gpio_irq_enable (layout n) j) /\
  ok Z (microsemi_gpio_irq_handler (layout n)) /\
  (eval (microsemi_mss_gpio_get_direction (layout n) idx) w = GPIO_LINE_DIRECTION_OUT
   <-> Z.testbit (mem w idx) MSS_GPIO_X_CFG_BIT_EN_OUT = true /\
       Z.testbit (mem w idx) MSS_GPIO_X_CFG_BIT_GPIO_OE = true).
Proof.
  intros Hidx Hj Hn Hok ok. subst ok. unfold MSS_NUM_GPIO in Hn. cbv beta.
  rewrite set_value_mem, irq_set_type_mem, irq_disable_mem, direction_input_mem,
    direction_output_mem, irq_enable_mem, irq_handler_exec, service_loop_frame
    by first [lia | addr].
  cbn [mem].
  split. { now hw. }
  destruct (Z.eq_dec j idx) as [-> | Hne].
  - split.
    { hw. rewrite <- Hok. apply direction_consistent_ext. intros k Hk. bits.
      rewrite trigger_field_outside by lia. apply orb_false_r. }
    split.
    { hw. rewrite <- Hok. apply direction_consistent_ext. intros k Hk.
      rewrite assigned_bit by (unfold MSS_GPIO_X_CFG_EN_INT; lia).
      unfold MSS_GPIO_X_CFG_EN_INT. destruct (Z.eqb_spec k 3); [lia |].
      apply testbit_u32. lia. }
    split. { hw. apply direction_consistent_input. }
    split. { hw. reflexivity. }
    split. { hw. apply direction_consistent_enabled. }
    split. { assumption. }
    apply get_direction_OUT_iff; [lia | assumption].
  - split. { now hw. }
    split. { now hw. }
    split. { now hw. }
    split. { now hw. }
    split. { now hw. }
    split. { assumption. }
    apply get_direction_OUT_iff; [lia | assumption].
Qed.

Lemma X19_direction_preserved_witness :
  0 <= 1 < 4 /\ 0 <= 1 < 4 /\ 4 <= MSS_NUM_GPIO /\
  direction_consistent (mem (power_on [(1, 13)]) 1) = true /\
  direction_consistent
    (mem (exec (microsemi_mss_gpio_irq_disable (layout 4) 1) (power_on [(1, 13)])) 1)
  = true.
Proof.
  split; [lia |]. split; [lia |]. split; [unfold MSS_NUM_GPIO; lia |].
  split; [reflexivity |].
  assert (H1 : 0 <= 1 < 4) by lia.
  assert (H2 : 4 <= MSS_NUM_GPIO) by (unfold MSS_NUM_GPIO; lia).
  assert (H3 : direction_consistent (mem (power_on [(1, 13)]) 1) = true) by reflexivity.
  destruct (X19_direction_preserved 4 1 1 0 IRQ_TYPE_EDGE_BOTH (power_on [(1, 13)])
              H1 H1 H2 H3) as (_ & _ & Hdis & _).
  exact Hdis.
Defined.

(** ** Runs of the handler in sequence *)

Lemma set_bits_zero (n : Z) : set_bits 0 n = [].
Proof. unfold set_bits. apply filter_none. intros x _. apply Z.bits_0. Qed.

(** The handler run on a device with no sticky bit below bit 32 dispatches
    nothing. *)
Lemma irq_handler_idle (n : Z) (w : world) :
  u32 (mem w IRQ_WORD) = 0 ->
  dispatched (log (exec (microsemi_gpio_irq_handler (layout n)) w))
  = dispatched (log w).
Proof.
  intros H0. rewrite irq_handler_dispatched, H0, set_bits_zero. apply app_nil_r.
Qed.

(** X20: a second run of the registered handler directly after the first,
    with no new trigger in between, dispatches nothing: no line is served
    twice for one latched event. *)
Theorem X20_irq_handler_twice (n : Z) (w : world) :
  dispatched (log (exec (microsemi_gpio_irq_handler (layout n) ;;
                         microsemi_gpio_irq_handler (layout n)) w))
  = dispatched (log (exec (microsemi_gpio_irq_handler (layout n)) w)).
Proof.
  rewrite exec_bind.
  destruct (set_bits (u32 (mem w IRQ_WORD)) n) as [| o l] eqn:Hl.
  - assert (Hw : exec (microsemi_gpio_irq_handler (layout n)) w
                 = mkWorld (mem w) (log w ++ [IoRead IRQ_WORD (u32 (mem w IRQ_WORD))])).
    { rewrite irq_handler_exec, Hl. reflexivity. }
    rewrite irq_handler_dispatched. rewrite Hw at 2. cbn [mem].
    rewrite Hl. apply app_nil_r.
  - apply irq_handler_idle. rewrite irq_handler_exec, Hl.
    apply service_loop_status; [discriminate |].
    rewrite <- Hl. apply set_bits_nonneg.
Qed.

(** X21: for an in-range line, a run of the registered handler directly
    after [irq_enable] dispatches nothing, whatever sticky bits were set
    before the enable: a stale trigger of the line does not fire when the
    line is enabled (and stale triggers of the other lines are dropped
    with it). *)
Theorem X21_enable_then_handler_is_silent (n hwirq : Z) (w : world) :
  0 <= hwirq < n -> n <= MSS_NUM_GPIO ->
  dispatched (log (exec (microsemi_mss_gpio_irq_enable (layout n) hwirq ;;
                         microsemi_gpio_irq_handler (layout n)) w))
  = dispatched (log w).
Proof.
  intros Hidx Hn. unfold MSS_NUM_GPIO in Hn.
  rewrite exec_bind, irq_handler_idle.
  - unfold exec. rewrite irq_enable_run by lia. cbn [snd log].
    rewrite dispatched_app. cbn. apply app_nil_r.
  - rewrite irq_enable_mem by lia. hw. apply u32_zero_bits. intros k Hk.
    apply cleared_status_bit; lia.
Qed.

Lemma X21_enable_then_handler_witness :
  0 <= 2 < 8 /\ 8 <= MSS_NUM_GPIO /\
  dispatched (log (exec (microsemi_mss_gpio_irq_enable (layout 8) 2 ;;
                         microsemi_gpio_irq_handler (layout 8))
                     (power_on [(IRQ_WORD, 20)])))
  = dispatched (log (power_on [(IRQ_WORD, 20)])).
Proof.
  split; [lia |]. split; [unfold MSS_NUM_GPIO; lia |].
  apply (X21_enable_then_handler_is_silent 8 2 (power_on [(IRQ_WORD, 20)]));
    unfold MSS_NUM_GPIO; lia.
Defined.
